(** * AttA2C: the training loop of [src/train.py] (class [Runner])

    A shallow embedding of [Runner.__init__], [Runner.train],
    [Runner.a2c_loss], [Runner.episode_rollout] and [Runner.icm_loss].

    - A torch tensor is a computation graph whose leaves are the outputs of
      the networks; its data is obtained by [teval]/[seval] over the real
      numbers (floating point is idealised as exact arithmetic) and its
      autograd history is the graph itself, cut at every [detach].
    - The collaborators of the runner (environment, network, coefficient
      schedule) are interfaces; every call the runner makes on one of them is
      recorded in a chronological event log.
    - Python exceptions are results: a call either returns or raises, and a
      raise aborts everything that follows it. *)

From Stdlib Require Import String List Arith Lia Bool Reals Lra.
Import ListNotations.

Set Implicit Arguments.

(** ** Tensors as computation graphs *)

Module Torch.

(** Which network output a graph leaf is.  The graph behind a leaf (the
    network that produced it) belongs to the collaborator. *)
Inductive origin : Type :=
| A2C_log_prob | A2C_entropy | A2C_value | A2C_features
| ICM_feature | ICM_feature_pred | ICM_action_pred.

(** Tensors with at least one axis, stored flat in row-major order, so that
    [.view(...)] is the identity on the data. *)
Inductive tensor : Type :=
| TLeaf (o : origin) (d : list R)     (* output of a network, with history *)
| TConst (d : list R)                 (* plain data, requires no gradient *)
| TDetach (x : tensor)                (* x.detach() *)
| TSub (x y : tensor)                 (* x - y *)
| TMul (x y : tensor)                 (* x * y *)
| TPow2 (x : tensor)                  (* x.pow(2) *)
| TCat (x y : tensor)                 (* rows of x followed by rows of y *)
| TView (whole part : tensor).        (* a slice of a tensor filled by in-place
                                         writes: the data of [part], the
                                         history of the [whole] tensor *)

(** Zero-dimensional tensors and Python numbers. *)
Inductive scalar : Type :=
| SLeaf (o : origin) (v : R)
| SConst (v : R)
| SAdd (a b : scalar)
| SSub (a b : scalar)
| SMul (a b : scalar)
| SNeg (a : scalar)
| SMean (x : tensor)                                    (* x.mean() *)
| SCrossEntropy (logits : tensor) (num_classes : nat) (target : list nat).

Fixpoint map2 {A B C : Type} (f : A -> B -> C) (l : list A) (m : list B) : list C :=
  match l, m with
  | a :: l', b :: m' => f a b :: map2 f l' m'
  | _, _ => []
  end.

Definition Rsum (l : list R) : R := fold_right Rplus 0%R l.

Definition Rmean (l : list R) : R := (Rsum l / INR (length l))%R.

Definition Rsqr2 (x : R) : R := (x * x)%R.

(** Rows of width [n] of a flat tensor; [fuel] bounds the number of rows. *)
Fixpoint rows (fuel n : nat) (d : list R) : list (list R) :=
  match fuel with
  | O => []
  | S fuel' =>
      match d with
      | [] => []
      | _ => firstn n d :: rows fuel' n (skipn n d)
      end
  end.

(** [F.cross_entropy] of one row of logits against the class [y]:
    minus the logarithm of the softmax probability of [y]. *)
Definition nll_row (row : list R) (y : nat) : R :=
  (ln (Rsum (map exp row)) - nth y row 0)%R.

(** [F.cross_entropy(logits.view(-1, n), target)] with the default mean
    reduction. *)
Definition cross_entropy (d : list R) (n : nat) (target : list nat) : R :=
  Rmean (map2 nll_row (rows (length d) n d) target).

(** The data of a tensor.  Operands of an elementwise operation have the same
    shape in every well-configured run (a shape mismatch is a configuration
    error of the collaborators and is outside this model). *)
Fixpoint teval (t : tensor) : list R :=
  match t with
  | TLeaf _ d => d
  | TConst d => d
  | TDetach x => teval x
  | TSub x y => map2 Rminus (teval x) (teval y)
  | TMul x y => map2 Rmult (teval x) (teval y)
  | TPow2 x => map Rsqr2 (teval x)
  | TCat x y => teval x ++ teval y
  | TView _ part => teval part
  end.

Fixpoint seval (s : scalar) : R :=
  match s with
  | SLeaf _ v => v
  | SConst v => v
  | SAdd a b => (seval a + seval b)%R
  | SSub a b => (seval a - seval b)%R
  | SMul a b => (seval a * seval b)%R
  | SNeg a => (- seval a)%R
  | SMean x => Rmean (teval x)
  | SCrossEntropy l n y => cross_entropy (teval l) n y
  end.

(** Autograd: backward from a node sends gradient to a leaf exactly when a
    path of operations that is not cut by [detach] joins them.  [p] selects
    the leaves of interest.  A tensor that is filled by in-place writes
    ([copy_]) is one node of the graph: every slice of it is joined to
    everything that was written into any part of it. *)
Fixpoint tgrad (p : origin -> bool) (t : tensor) : bool :=
  match t with
  | TLeaf o _ => p o
  | TConst _ => false
  | TDetach _ => false
  | TSub x y => tgrad p x || tgrad p y
  | TMul x y => tgrad p x || tgrad p y
  | TPow2 x => tgrad p x
  | TCat x y => tgrad p x || tgrad p y
  | TView whole _ => tgrad p whole
  end.

Fixpoint sgrad (p : origin -> bool) (s : scalar) : bool :=
  match s with
  | SLeaf o _ => p o
  | SConst _ => false
  | SAdd a b => sgrad p a || sgrad p b
  | SSub a b => sgrad p a || sgrad p b
  | SMul a b => sgrad p a || sgrad p b
  | SNeg a => sgrad p a
  | SMean x => tgrad p x
  | SCrossEntropy l _ _ => tgrad p l
  end.

(** [F.mse_loss(input, target)] with the default mean reduction. *)
Definition mse_loss (input target : tensor) : scalar :=
  SMean (TPow2 (TSub input target)).

Definition is_origin (o o' : origin) : bool :=
  match o, o' with
  | A2C_log_prob, A2C_log_prob | A2C_entropy, A2C_entropy
  | A2C_value, A2C_value | A2C_features, A2C_features
  | ICM_feature, ICM_feature | ICM_feature_pred, ICM_feature_pred
  | ICM_action_pred, ICM_action_pred => true
  | _, _ => false
  end.

End Torch.

(** ** The rollout buffer ([storage.RolloutStorage])

    The class is defined in [storage.py], outside [train.py]; what the runner
    uses of it is modelled from sections 3 and 4.1 of the specification. *)

Module Storage.
Import Torch.

(** Modelled from the spec: the per-step fields of [storage.py] that
    [insert] writes at one index (actions, log-probabilities, values, rewards
    and done flags of section 3), for all environments. *)
Record transition : Type := {
  tr_rewards : list R;
  tr_action : list nat;
  tr_log_prob : tensor;
  tr_value : tensor;
  tr_dones : list bool }.

(** Modelled from the spec: the fixed-shape tables of [RolloutStorage]
    (section 3).  Each table is one tensor, allocated once and mutated in
    place; a table is recorded here as the list of the tensors that were
    copied into its slots.  A slot is [None] until it is written and after it
    is released; the state and feature tables have one more slot than the
    step table. *)
Record RolloutStorage : Type := {
  rollout_size : nat;
  num_envs : nat;
  frame_shape : list nat;
  n_stack : nat;
  cuda : bool;
  states : list (option tensor);
  steps : list (option transition);
  features : list (option tensor) }.

(** Modelled from the spec: the constructor of [RolloutStorage], which
    allocates the tables once with their fixed shape. *)
Definition RolloutStorage_new (T N : nat) (shape : list nat) (stack : nat)
    (is_cuda : bool) : RolloutStorage :=
  {| rollout_size := T; num_envs := N; frame_shape := shape; n_stack := stack;
     cuda := is_cuda;
     states := repeat None (S T);
     steps := repeat None T;
     features := repeat None (S T) |}.

(** Writing slot [i]; indexing past the end of a table raises [IndexError],
    here [None]. *)
Fixpoint write {A : Type} (i : nat) (x : A) (l : list (option A))
  : option (list (option A)) :=
  match l, i with
  | [], _ => None
  | _ :: l', O => Some (Some x :: l')
  | y :: l', S i' =>
      match write i' x l' with
      | Some l'' => Some (y :: l'')
      | None => None
      end
  end.

(** A slot that was never written, or was released, reads as an empty
    tensor. *)
Definition slot (o : option tensor) : tensor :=
  match o with Some t => t | None => TConst [] end.

Definition empty_transition : transition :=
  {| tr_rewards := []; tr_action := []; tr_log_prob := TConst [];
     tr_value := TConst []; tr_dones := [] |}.

Definition step_slot (o : option transition) : transition :=
  match o with Some t => t | None => empty_transition end.


(** Modelled from the spec: [obs2tensor] of [storage.py] converts raw
    observations into the tensor representation. *)
Definition obs2tensor (obs : list R) : tensor := TConst obs.

Definition set_states (l : list (option tensor)) (s : RolloutStorage) :=
  {| rollout_size := rollout_size s; num_envs := num_envs s;
     frame_shape := frame_shape s; n_stack := n_stack s; cuda := cuda s;
     states := l; steps := steps s; features := features s |}.

Definition set_features (l : list (option tensor)) (s : RolloutStorage) :=
  {| rollout_size := rollout_size s; num_envs := num_envs s;
     frame_shape := frame_shape s; n_stack := n_stack s; cuda := cuda s;
     states := states s; steps := steps s; features := l |}.

(** Modelled from the spec: [get_state(t)] of [storage.py] returns the
    stacked observation of time [t] and does not change the buffer. *)
Definition get_state (t : nat) (s : RolloutStorage) : option tensor :=
  match nth_error (states s) t with
  | Some o => Some (slot o)
  | None => None
  end.

(** [self.storage.states[0].copy_(...)] and [self.storage.features[i].copy_(...)]. *)
Definition copy_state (t : nat) (x : tensor) (s : RolloutStorage) : option RolloutStorage :=
  match write t x (states s) with
  | Some l => Some (set_states l s)
  | None => None
  end.

Definition copy_feature (t : nat) (x : tensor) (s : RolloutStorage) : option RolloutStorage :=
  match write t x (features s) with
  | Some l => Some (set_features l s)
  | None => None
  end.

(** Modelled from the spec: [insert(t, ...)] of [storage.py] writes all
    per-step fields at index [t] and the converted observation into state slot
    [t+1].  The tensors are kept with their autograd history: [train] resets
    the buffer after every update because it retains the graph. *)
Definition insert (t : nat) (rewards obs : list R) (a : list nat)
    (log_prob value : tensor) (dones : list bool) (feature : tensor)
    (s : RolloutStorage) : option RolloutStorage :=
  let tr := {| tr_rewards := rewards; tr_action := a; tr_log_prob := log_prob;
               tr_value := value; tr_dones := dones |} in
  match write t tr (steps s), write t feature (features s),
        write (S t) (obs2tensor obs) (states s) with
  | Some st, Some ft, Some ss =>
      Some {| rollout_size := rollout_size s; num_envs := num_envs s;
              frame_shape := frame_shape s; n_stack := n_stack s; cuda := cuda s;
              states := ss; steps := st; features := ft |}
  | _, _, _ => None
  end.

(** Concatenation along the time axis. *)
Definition cat (ts : list tensor) : tensor := fold_right TCat (TConst []) ts.

(** [self.storage.states.view(-1, n_stack, *frame_shape)] *)
Definition all_states (s : RolloutStorage) : tensor := cat (map slot (states s)).

(** [self.storage.actions.view(-1)], read as class indices ([.long()]). *)
Definition all_actions (s : RolloutStorage) : list nat :=
  concat (map (fun o => tr_action (step_slot o)) (steps s)).

(** [self.storage.features]: the one tensor that [insert] and [copy_] fill
    in place. *)
Definition feature_table (s : RolloutStorage) : tensor :=
  cat (map slot (features s)).

(** [self.storage.features[1:, :, :].view(-1, feature_size)]: the data of the
    slots from 1 on, as a slice of the whole feature tensor. *)
Definition features_from1 (s : RolloutStorage) : tensor :=
  TView (feature_table s) (cat (map slot (tl (features s)))).

Definition b2R (b : bool) : R := if b then 1%R else 0%R.

(** Modelled from the spec: one step of the bootstrapped return of
    [RolloutStorage.a2c_loss],
    [R_t = reward_t + gamma * R_{t+1} * (1 - done_t)], for every environment. *)
Definition step_return (gamma : R) (reward next : list R) (done : list bool) : list R :=
  map2 (fun r nd => (r + gamma * fst nd * (1 - b2R (snd nd)))%R)
       reward (combine next done).

(** Modelled from the spec: the returns of [RolloutStorage.a2c_loss] for
    [t = T-1 .. 0], seeded with [R_T = final_value]. *)
Fixpoint returns (gamma : R) (rewards : list (list R)) (dones : list (list bool))
    (final_value : list R) : list (list R) :=
  match rewards, dones with
  | r :: rewards', d :: dones' =>
      let rest := returns gamma rewards' dones' final_value in
      step_return gamma r (hd final_value rest) d :: rest
  | _, _ => []
  end.

(** Modelled from the spec: the advantage [A_t = R_t - value_t] that
    [RolloutStorage.a2c_loss] computes. *)
Definition advantage (gamma : R) (trs : list transition) (final_value : tensor) : tensor :=
  TSub (TConst (concat (returns gamma (map tr_rewards trs) (map tr_dones trs)
                                (teval final_value))))
       (cat (map tr_value trs)).

(** Modelled from the spec: [compute_a2c_terms(final_value)], in the source
    [self.storage.a2c_loss(final_value)] of [storage.py]: policy loss
    [-mean(log_prob_t * detach(A_t))], value loss [mean(A_t^2)]; the third
    component is the collected rewards. *)
Definition a2c_terms (gamma : R) (trs : list transition) (final_value : tensor)
  : scalar * scalar * list R :=
  let adv := advantage gamma trs final_value in
  (SNeg (SMean (TMul (cat (map tr_log_prob trs)) (TDetach adv))),
   SMean (TPow2 adv),
   concat (map tr_rewards trs)).

(** Modelled from the spec: [RolloutStorage.a2c_loss] on the recorded
    steps of the buffer. *)
Definition a2c_loss (gamma : R) (s : RolloutStorage) (final_value : tensor) :=
  a2c_terms gamma (map step_slot (steps s)) final_value.

(** Modelled from the spec: [after_update()] of [storage.py] reseeds slot 0
    from the last observed state, detached, and releases every other buffered
    tensor. *)
Definition after_update (s : RolloutStorage) : RolloutStorage :=
  let last := nth (rollout_size s) (states s) None in
  {| rollout_size := rollout_size s; num_envs := num_envs s;
     frame_shape := frame_shape s; n_stack := n_stack s; cuda := cuda s;
     states := option_map TDetach last :: repeat None (rollout_size s);
     steps := repeat None (rollout_size s);
     features := repeat None (S (rollout_size s)) |}.

(** Modelled from the spec: the shape invariant of [RolloutStorage]
    (section 3): [T+1] state and feature slots, [T] step slots. *)
Definition wf (s : RolloutStorage) : Prop :=
  length (states s) = S (rollout_size s) /\
  length (steps s) = rollout_size s /\
  length (features s) = S (rollout_size s).

End Storage.

(** ** Collaborators of the runner *)

Module Collab.
Import Torch.

(** What [net.a2c.get_action] returns, as data.  The entropy is a
    zero-dimensional tensor: it is summed into the loss, and [backward] takes
    a scalar. *)
Record action_data : Type := {
  ad_a_t : list nat;
  ad_log_p : list R;
  ad_entropy : R;
  ad_value : list R;
  ad_features : list R }.

(** What [env.step] returns; an info entry is the total reward of an episode
    that just finished, when there is one. *)
Record step_data : Type := {
  sd_obs : list R;
  sd_rewards : list R;
  sd_dones : list bool;
  sd_infos : list (option R) }.

(** The vectorised environment: [reset], [step], [close] and
    [observation_space.shape]. *)
Class Environment (E : Type) : Type := {
  env_reset : E -> list R * E;
  env_step : list nat -> E -> step_data * E;
  env_close : E -> E;
  observation_shape : E -> list nat }.

(** The network [net]: the actor-critic head [net.a2c], the curiosity module
    [net.icm], the optimizer [net.optimizer] and the parameters.  The first
    argument of [a2c_get_action] tells whether gradients are enabled
    ([false] inside [torch.no_grad()]). *)
Class Network (N : Type) : Type := {
  a2c_get_action : bool -> list R -> N -> action_data * N;
  a2c_reset_recurrent_buffers : list bool -> N -> N;
  icm : nat -> list R -> list nat -> N -> (list R * list R * list R) * N;
  num_actions : N -> nat;
  optimizer_zero_grad : N -> N;
  backward : scalar -> N -> N;
  clip_grad_norm_ : R -> N -> N;
  optimizer_step : N -> N;
  net_cuda : N -> N }.

(** [params.curiosity_coeff]: a current value and a decay step. *)
Class CoefficientSchedule (C : Type) : Type := {
  coeff_value : C -> R;
  coeff_step : C -> C }.

(** The configuration object [params]. *)
Record Params (C : Type) : Type := {
  env_name : string;
  num_updates : nat;
  rollout_size : nat;
  num_envs : nat;
  n_stack : nat;
  value_coeff : R;
  entropy_coeff : R;
  max_grad_norm : R;
  curiosity_coeff : C }.

(** A [logger.TemporalLogger] object, as far as the runner reads it: the
    data directory it exposes.  The class is defined in [logger.py], outside
    [train.py]; how it derives the directory from its constructor arguments
    is its own business. *)
Record TemporalLogger : Type := {
  data_dir : string }.

End Collab.

(** ** The runner *)

Module Runner.
Import Torch Collab.

(** The tensors returned by one [get_action] call. *)
Record action_out : Type := {
  a_t : list nat;
  log_p_a_t : tensor;
  entropy : scalar;
  value : tensor;
  a2c_features : tensor }.

(** Gradients enabled: every output is a graph leaf.  Inside
    [torch.no_grad()] the outputs carry no history. *)
Definition wrap_action (grad_enabled : bool) (d : action_data) : action_out :=
  if grad_enabled then
    {| a_t := ad_a_t d;
       log_p_a_t := TLeaf A2C_log_prob (ad_log_p d);
       entropy := SLeaf A2C_entropy (ad_entropy d);
       value := TLeaf A2C_value (ad_value d);
       a2c_features := TLeaf A2C_features (ad_features d) |}
  else
    {| a_t := ad_a_t d;
       log_p_a_t := TConst (ad_log_p d);
       entropy := SConst (ad_entropy d);
       value := TConst (ad_value d);
       a2c_features := TConst (ad_features d) |}.

(** Calls on the collaborators, in the order the runner makes them; a call
    is logged when it has returned. *)
Inductive event : Type :=
| EnvReset                                   (* env.reset() *)
| EnvStep (actions : list nat) (dones : list bool)
                                             (* env.step(actions), with the dones it returned *)
| EnvClose                                   (* env.close() *)
| CopyState (t : nat)                        (* storage.states[t].copy_(...) *)
| GetState (t : nat)                         (* storage.get_state(t) *)
| GetAction (grad_enabled : bool) (out : action_out)
                                             (* net.a2c.get_action(...), with what it returned *)
| LogEpisodeRewards (infos : list (option R)) (* storage.log_episode_rewards(infos) *)
| Insert (t : nat) (dones : list bool)       (* storage.insert(t, ..., dones, ...) *)
| ResetRecurrent (dones : list bool)         (* net.a2c.reset_recurrent_buffers(reset_indices=dones) *)
| CopyFeature (t : nat)                      (* storage.features[t].copy_(...) *)
| ZeroGrad                                   (* net.optimizer.zero_grad() *)
| IcmForward (feature feature_pred a_t_pred : tensor)
                                             (* net.icm(...), with what it returned *)
| A2CLoss (policy_loss value_loss : scalar)  (* storage.a2c_loss(final_value) *)
| CoeffRead (v : R)                          (* params.curiosity_coeff.value *)
| Backward (loss : scalar) (retain_graph : bool)
                                             (* loss.backward(retain_graph=...) *)
| ClipGradNorm (max_norm : R)                (* nn.utils.clip_grad_norm_(net.parameters(), max_norm) *)
| LoggerLog                                  (* logger.log(rewards, features) *)
| OptimizerStep                              (* net.optimizer.step() *)
| AfterUpdate                                (* storage.after_update() *)
| CoeffStep                                  (* params.curiosity_coeff.step() *)
| Print (num_update : nat) (loss_item : R)   (* print(... loss.item() ... num_update) *)
| PrintRewardStats                           (* storage.print_reward_stats() *)
| LoggerSave                                 (* logger.save() *)
| ParamsSave (dir timestamp : string).       (* params.save(logger.data_dir, timestamp) *)

(** The exceptions the runner's own code can raise. *)
Inductive exn : Type :=
| UnboundLocalError (name : string)
| IndexError.

Inductive result (A : Type) : Type :=
| Ok (a : A)
| Raise (e : exn).
Arguments Raise {A} e.

Section WithCollaborators.

Context {E N C : Type} `{Environment E} `{Network N} `{CoefficientSchedule C}.

(** The discount factor, a constant of the buffer. *)
Variable gamma : R.

(** The attributes of a [Runner] object. *)
Record Runner : Type := {
  timestamp : string;
  seed : Z;
  is_cuda : bool;
  params : Params C;
  logger : TemporalLogger;
  env : E;
  storage : Storage.RolloutStorage;
  net : N }.

Definition set_env (e : E) (r : Runner) : Runner :=
  {| timestamp := timestamp r; seed := seed r; is_cuda := is_cuda r;
     params := params r; logger := logger r; env := e;
     storage := storage r; net := net r |}.

Definition set_net (n : N) (r : Runner) : Runner :=
  {| timestamp := timestamp r; seed := seed r; is_cuda := is_cuda r;
     params := params r; logger := logger r; env := env r;
     storage := storage r; net := n |}.

Definition set_storage (s : Storage.RolloutStorage) (r : Runner) : Runner :=
  {| timestamp := timestamp r; seed := seed r; is_cuda := is_cuda r;
     params := params r; logger := logger r; env := env r;
     storage := s; net := net r |}.

Definition set_coeff (c : C) (r : Runner) : Runner :=
  let p := params r in
  {| timestamp := timestamp r; seed := seed r; is_cuda := is_cuda r;
     params := {| env_name := env_name p; num_updates := num_updates p;
                  rollout_size := rollout_size p; num_envs := num_envs p;
                  n_stack := n_stack p; value_coeff := value_coeff p;
                  entropy_coeff := entropy_coeff p;
                  max_grad_norm := max_grad_norm p; curiosity_coeff := c |};
     logger := logger r; env := env r; storage := storage r; net := net r |}.

(** A method of the runner: from the object's state to a result, the new
    state and the calls made. *)
Definition M (A : Type) : Type := Runner -> result A * Runner * list event.

Definition ret {A : Type} (a : A) : M A := fun r => (Ok a, r, []).

Definition bind {A B : Type} (m : M A) (f : A -> M B) : M B :=
  fun r =>
    match m r with
    | (Ok a, r1, w1) =>
        match f a r1 with
        | (x, r2, w2) => (x, r2, w1 ++ w2)
        end
    | (Raise e, r1, w1) => (Raise e, r1, w1)
    end.

Definition raise {A : Type} (e : exn) : M A := fun r => (Raise e, r, []).

Definition gets {A : Type} (f : Runner -> A) : M A := fun r => (Ok (f r), r, []).

Definition emit (e : event) : M unit := fun r => (Ok tt, r, [e]).

Definition call_env {A : Type} (f : E -> A * E) : M A :=
  fun r => match f (env r) with (a, e') => (Ok a, set_env e' r, []) end.

Definition call_net {A : Type} (f : N -> A * N) : M A :=
  fun r => match f (net r) with (a, n') => (Ok a, set_net n' r, []) end.

Definition update_net (f : N -> N) : M unit :=
  fun r => (Ok tt, set_net (f (net r)) r, []).

Definition update_storage (f : Storage.RolloutStorage -> option Storage.RolloutStorage)
  : M unit :=
  fun r => match f (storage r) with
           | Some s => (Ok tt, set_storage s r, [])
           | None => (Raise IndexError, r, [])
           end.

Definition of_option {A : Type} (o : option A) (e : exn) : M A :=
  match o with Some a => ret a | None => raise e end.

Definition update_env (f : E -> E) : M unit :=
  fun r => (Ok tt, set_env (f (env r)) r, []).

Definition update_coeff (f : C -> C) : M unit :=
  fun r => (Ok tt, set_coeff (f (curiosity_coeff (params r))) r, []).

Notation "x <- m ;; k" := (bind m (fun x => k))
  (at level 61, m at next level, right associativity).
Notation "m ;; k" := (bind m (fun _ => k))
  (at level 61, right associativity).

(** [Runner.__init__]; [now] is the clock reading that [strftime] formats,
    [cuda_available] the answer of [torch.cuda.is_available()] and
    [new_logger] the constructor of the imported class [TemporalLogger]. *)
Definition init (net0 : N) (env0 : E) (params0 : Params C) (is_cuda0 : bool)
    (seed0 : Z) (log_dir now : string) (cuda_available : bool)
    (new_logger : string -> string -> string -> TemporalLogger) : Runner :=
  let on_cuda := cuda_available && is_cuda0 in
  {| timestamp := now;
     seed := seed0;
     is_cuda := on_cuda;
     params := params0;
     logger := new_logger (env_name params0) now log_dir;
     env := env0;
     storage := Storage.RolloutStorage_new (rollout_size params0) (num_envs params0)
                  (removelast (observation_shape env0)) (n_stack params0) on_cuda;
     net := if on_cuda then net_cuda net0 else net0 |}.

(** [self.storage.get_state(t)] *)
Definition storage_get_state (t : nat) : M tensor :=
  s <- gets storage ;;
  x <- of_option (Storage.get_state t s) IndexError ;;
  emit (GetState t) ;;
  ret x.

(** [self.net.a2c.get_action(state)] *)
Definition net_get_action (grad_enabled : bool) (state : tensor) : M action_out :=
  d <- call_net (a2c_get_action grad_enabled (teval state)) ;;
  emit (GetAction grad_enabled (wrap_action grad_enabled d)) ;;
  ret (wrap_action grad_enabled d).

(** [self.env.step(a_t.cpu().numpy())] *)
Definition env_do_step (a : list nat) : M step_data :=
  sd <- call_env (env_step a) ;;
  emit (EnvStep a (sd_dones sd)) ;;
  ret sd.

(** The local variables of [episode_rollout]; [step] is unbound until the
    loop has run once. *)
Record rollout_locals : Type := {
  episode_entropy : scalar;
  step : option nat }.

(** The body of [for step in range(self.params.rollout_size)]. *)
Fixpoint rollout_loop (range : list nat) (loc : rollout_locals) : M rollout_locals :=
  match range with
  | [] => ret loc
  | t :: range' =>
      state <- storage_get_state t ;;
      out <- net_get_action true state ;;
      sd <- env_do_step (a_t out) ;;
      emit (LogEpisodeRewards (sd_infos sd)) ;;
      update_storage (Storage.insert t (sd_rewards sd) (sd_obs sd) (a_t out)
                        (log_p_a_t out) (value out) (sd_dones sd) (a2c_features out)) ;;
      emit (Insert t (sd_dones sd)) ;;
      update_net (a2c_reset_recurrent_buffers (sd_dones sd)) ;;
      emit (ResetRecurrent (sd_dones sd)) ;;
      rollout_loop range'
        {| episode_entropy := SAdd (episode_entropy loc) (entropy out);
           step := Some t |}
  end.

Definition local_step (loc : rollout_locals) : M nat :=
  of_option (step loc) (UnboundLocalError "step").

(** [Runner.episode_rollout] *)
Definition episode_rollout : M (tensor * scalar) :=
  p <- gets params ;;
  loc <- rollout_loop (seq 0 (rollout_size p))
           {| episode_entropy := SConst 0; step := None |} ;;
  i <- local_step loc ;;
  state <- storage_get_state (i + 1) ;;
  out <- net_get_action false state ;;
  j <- local_step loc ;;
  update_storage (Storage.copy_feature (j + 1) (a2c_features out)) ;;
  emit (CopyFeature (j + 1)) ;;
  ret (value out, episode_entropy loc).

(** [Runner.a2c_loss] *)
Definition a2c_loss (self : Runner) (entropy0 policy_loss value_loss : scalar) : scalar :=
  SSub (SAdd policy_loss (SMul (SConst (value_coeff (params self))) value_loss))
       (SMul (SConst (entropy_coeff (params self))) entropy0).

(** [Runner.icm_loss] *)
Definition icm_loss (self : Runner) (features feature_preds action_preds : tensor)
    (actions : list nat) : scalar :=
  let loss_fwd := mse_loss feature_preds features in
  let loss_inv := SCrossEntropy action_preds (num_actions (net self)) actions in
  SAdd loss_fwd loss_inv.

(** The curiosity loss of [train]:
    [(features[1:].view(-1, feature_size) - feature_pred.detach()).pow(2).mean()] *)
Definition curiosity_loss (self : Runner) (feature_pred : tensor) : scalar :=
  SMean (TPow2 (TSub (Storage.features_from1 (storage self)) (TDetach feature_pred))).

(** The loss assembled in [train]:
    [self.a2c_loss(...) + self.icm_loss(...) - self.params.curiosity_coeff.value * curiosity_loss] *)
Definition assemble_loss (self : Runner) (entropy0 policy_loss value_loss : scalar)
    (feature feature_pred a_t_pred : tensor) (curiosity : scalar) : scalar :=
  SSub (SAdd (a2c_loss self entropy0 policy_loss value_loss)
             (icm_loss self feature feature_pred a_t_pred
                       (Storage.all_actions (storage self))))
       (SMul (SConst (coeff_value (curiosity_coeff (params self)))) curiosity).

(** [self.net.icm(num_envs, states, actions)] *)
Definition net_icm : M (tensor * tensor * tensor) :=
  p <- gets params ;;
  s <- gets storage ;;
  o <- call_net (icm (num_envs p) (teval (Storage.all_states s)) (Storage.all_actions s)) ;;
  let '(f, fp, ap) := o in
  emit (IcmForward (TLeaf ICM_feature f) (TLeaf ICM_feature_pred fp)
                   (TLeaf ICM_action_pred ap)) ;;
  ret (TLeaf ICM_feature f, TLeaf ICM_feature_pred fp, TLeaf ICM_action_pred ap).

(** The body of [for num_update in range(self.params.num_updates)]. *)
Definition update (num_update : nat) : M unit :=
  fe <- episode_rollout ;;
  let '(final_value, entropy0) := fe in
  update_net optimizer_zero_grad ;;
  emit ZeroGrad ;;
  o <- net_icm ;;
  let '(feature, feature_pred, a_t_pred) := o in
  self <- gets (fun r => r) ;;
  let curiosity := curiosity_loss self feature_pred in
  let '(policy_loss, value_loss, rewards) :=
    Storage.a2c_loss gamma (storage self) final_value in
  emit (A2CLoss policy_loss value_loss) ;;
  emit (CoeffRead (coeff_value (curiosity_coeff (params self)))) ;;
  let loss := assemble_loss self entropy0 policy_loss value_loss
                feature feature_pred a_t_pred curiosity in
  update_net (backward loss) ;;
  emit (Backward loss false) ;;
  update_net (clip_grad_norm_ (max_grad_norm (params self))) ;;
  emit (ClipGradNorm (max_grad_norm (params self))) ;;
  emit LoggerLog ;;
  update_net optimizer_step ;;
  emit OptimizerStep ;;
  update_storage (fun s => Some (Storage.after_update s)) ;;
  emit AfterUpdate ;;
  update_coeff coeff_step ;;
  emit CoeffStep ;;
  if (num_update mod 100 =? 0)%nat
  then emit (Print num_update (seval loss)) ;; emit PrintRewardStats
  else ret tt.

Fixpoint for_each (range : list nat) (body : nat -> M unit) : M unit :=
  match range with
  | [] => ret tt
  | k :: range' => body k ;; for_each range' body
  end.

(** [Runner.train] *)
Definition train : M unit :=
  obs <- call_env env_reset ;;
  emit EnvReset ;;
  update_storage (Storage.copy_state 0 (Storage.obs2tensor obs)) ;;
  emit (CopyState 0) ;;
  p <- gets params ;;
  for_each (seq 0 (num_updates p)) update ;;
  update_env env_close ;;
  emit EnvClose ;;
  emit LoggerSave ;;
  lg <- gets logger ;;
  ts <- gets timestamp ;;
  emit (ParamsSave (data_dir lg) ts).

End WithCollaborators.

End Runner.

(** ** Reading the event log *)

Module Log.
Import Torch Runner.



Definition is_no_grad_query (e : event) : bool :=
  match e with GetAction false _ => true | _ => false end.

Definition is_env_step (e : event) : bool :=
  match e with EnvStep _ _ => true | _ => false end.

(** The four calls of the optimization step. *)
Definition is_optimization (e : event) : bool :=
  match e with
  | ZeroGrad | Backward _ _ | ClipGradNorm _ | OptimizerStep => true
  | _ => false
  end.

(** The calls that read or advance the coefficient schedule, with the
    backward pass and the optimizer step they are ordered against. *)
Definition is_schedule (e : event) : bool :=
  match e with
  | CoeffRead _ | Backward _ _ | OptimizerStep | CoeffStep => true
  | _ => false
  end.

Definition is_zero_grad (e : event) : bool :=
  match e with ZeroGrad => true | _ => false end.

Definition is_teardown (e : event) : bool :=
  match e with
  | EnvClose | LoggerSave | ParamsSave _ _ => true
  | _ => false
  end.

(** What the calls of [storage.a2c_loss] returned, in order. *)
Definition a2c_outputs (w : list event) : list (scalar * scalar) :=
  flat_map (fun e => match e with A2CLoss pl vl => [(pl, vl)] | _ => [] end) w.

(** The losses handed to [backward], in order. *)
Definition backward_losses (w : list event) : list scalar :=
  flat_map (fun e => match e with Backward L _ => [L] | _ => [] end) w.

(** The coefficient that weights the subtracted curiosity term of a loss. *)
Definition coeff_factor (L : scalar) : option R :=
  match L with
  | SSub _ (SMul (SConst v) _) => Some v
  | _ => None
  end.

End Log.

(** ** What the methods of the runner do, as statements *)

Module Outcome.
Import Torch Collab Runner Log.

Section WithCollaborators.

Context {E N C : Type} `{Environment E} `{Network N} `{CoefficientSchedule C}.
Variable gamma : R.

Local Abbreviation Runner := (@Runner E N C).

(** One rollout step as data: what the agent and the environment returned. *)
Definition step_rec : Type := (action_out * step_data)%type.

(** The calls of rollout step [t]. *)
Definition block (t : nat) (x : step_rec) : list event :=
  [GetState t; GetAction true (fst x);
   EnvStep (a_t (fst x)) (sd_dones (snd x));
   LogEpisodeRewards (sd_infos (snd x));
   Insert t (sd_dones (snd x));
   ResetRecurrent (sd_dones (snd x))].

(** The calls of the rollout steps [t], [t+1], ... in order. *)
Fixpoint blocks (t : nat) (l : list step_rec) : list event :=
  match l with
  | [] => []
  | x :: l' => block t x ++ blocks (S t) l'
  end.

(** What [insert] records of a rollout step. *)
Definition transition_of (x : step_rec) : Storage.transition :=
  {| Storage.tr_rewards := sd_rewards (snd x);
     Storage.tr_action := a_t (fst x);
     Storage.tr_log_prob := log_p_a_t (fst x);
     Storage.tr_value := value (fst x);
     Storage.tr_dones := sd_dones (snd x) |}.

Definition state_of (x : step_rec) : tensor := Storage.obs2tensor (sd_obs (snd x)).

Definition feature_of (x : step_rec) : tensor := a2c_features (fst x).

(** [episode_entropy] after the steps [l], starting from [e0]. *)
Definition entropy_sum (e0 : scalar) (l : list step_rec) : scalar :=
  fold_left (fun acc x => SAdd acc (entropy (fst x))) l e0.

(** Every output of a step with gradients enabled is a graph leaf. *)
Definition with_grad (x : step_rec) : Prop :=
  exists d, fst x = wrap_action true d.

(** The attributes that no rollout changes. *)
Definition same_config (r r' : Runner) : Prop :=
  params r' = params r /\ timestamp r' = timestamp r /\ logger r' = logger r /\
  seed r' = seed r /\ is_cuda r' = is_cuda r /\
  Storage.rollout_size (storage r') = Storage.rollout_size (storage r).

(** The invariant of the runner between two rollouts: the buffer has the
    shape it was allocated with in [__init__]. *)
Definition runner_wf (r : Runner) : Prop :=
  Storage.wf (storage r) /\
  Storage.rollout_size (storage r) = rollout_size (params r).

(** What a successful rollout does, in full. *)
Definition rollout_outcome (r : Runner) (l : list step_rec) (fin : action_out)
    (r' : Runner) : Prop :=
  let T := rollout_size (params r) in
  episode_rollout r =
    (Ok (value fin, entropy_sum (SConst 0) l), r',
     blocks 0 l ++ [GetState T; GetAction false fin; CopyFeature T]) /\
  length l = T /\ Forall with_grad l /\
  (exists d, fin = wrap_action false d) /\
  same_config r r' /\
  Storage.steps (storage r') = map (fun x => Some (transition_of x)) l /\
  Storage.features (storage r') =
    map (fun x => Some (feature_of x)) l ++ [Some (a2c_features fin)] /\
  Storage.states (storage r') =
    firstn 1 (Storage.states (storage r)) ++ map (fun x => Some (state_of x)) l.

(** The loss that [train] assembles once the rollout and the curiosity module
    have returned; [self] is the runner at that point. *)
Definition update_loss (self : Runner) (entropy0 : scalar) (final_value : tensor)
    (F FP AP : tensor) : scalar :=
  let terms := Storage.a2c_loss gamma (storage self) final_value in
  assemble_loss self entropy0 (fst (fst terms)) (snd (fst terms)) F FP AP
    (curiosity_loss self FP).

(** The calls of one update after its rollout. *)
Definition update_tail (k : nat) (self : Runner) (entropy0 : scalar)
    (final_value : tensor) (F FP AP : tensor) : list event :=
  let terms := Storage.a2c_loss gamma (storage self) final_value in
  let loss := update_loss self entropy0 final_value F FP AP in
  [ZeroGrad; IcmForward F FP AP;
   A2CLoss (fst (fst terms)) (snd (fst terms));
   CoeffRead (coeff_value (curiosity_coeff (params self)));
   Backward loss false;
   ClipGradNorm (max_grad_norm (params self));
   LoggerLog; OptimizerStep; AfterUpdate; CoeffStep]
  ++ (if (k mod 100 =? 0)%nat then [Print k (seval loss); PrintRewardStats] else []).

(** What a successful update does, in full. *)
Definition update_outcome (k : nat) (r : Runner) (l : list step_rec)
    (fin : action_out) (self : Runner) (f fp ap : list R) (r' : Runner) : Prop :=
  let T := rollout_size (params r) in
  exists r1 n2,
    rollout_outcome r l fin r1 /\
    icm (num_envs (params r1)) (teval (Storage.all_states (storage r1)))
        (Storage.all_actions (storage r1)) (optimizer_zero_grad (net r1))
      = ((f, fp, ap), n2) /\
    self = set_net n2 r1 /\
    update gamma k r =
      (Ok tt, r',
       (blocks 0 l ++ [GetState T; GetAction false fin; CopyFeature T]) ++
       update_tail k self (entropy_sum (SConst 0) l) (value fin)
         (TLeaf ICM_feature f) (TLeaf ICM_feature_pred fp) (TLeaf ICM_action_pred ap)) /\
    runner_wf r' /\
    params r' = params (set_coeff (coeff_step (curiosity_coeff (params r))) r) /\
    timestamp r' = timestamp r /\ logger r' = logger r /\ seed r' = seed r.

(** [w] is the log of update number [k], run from a well-formed runner whose
    coefficient schedule is [c]. *)
Definition update_run (k : nat) (p : Params C) (w : list event) : Prop :=
  exists (r : Runner) l fin self f fp ap r',
    runner_wf r /\ (0 < rollout_size (params r))%nat /\
    params r = p /\
    update_outcome k r l fin self f fp ap r' /\
    update gamma k r = (Ok tt, r', w).

(** The configuration at the start of update [i]: the initial one with the
    coefficient schedule advanced [i] times. *)
Definition params_at (i : nat) (r : Runner) : Params C :=
  params (set_coeff (Nat.iter i coeff_step (curiosity_coeff (params r))) r).

(** What a successful training run does: the log is the reset, the logs of
    the updates in order, and the teardown. *)
Definition train_outcome (r : Runner) (ws : list (list event)) (r' : Runner) : Prop :=
  train gamma r =
    (Ok tt, r',
     [EnvReset; CopyState 0] ++ concat ws ++
     [EnvClose; LoggerSave; ParamsSave (data_dir (logger r)) (timestamp r)]) /\
  Forall2 (fun i w => update_run i (params_at i r) w)
          (seq 0 (num_updates (params r))) ws.

(** The runners of a rollout, step by step: [rollout_chain t r l r'] says
    that the steps [t], [t+1], ... run from [r] return [l] and leave [r'].
    Each step reads its state from the buffer as the previous [insert] left
    it, and queries the network as the previous reset of the recurrent
    buffers left it. *)
Fixpoint rollout_chain (t : nat) (r : Runner) (l : list step_rec) (r' : Runner)
  : Prop :=
  match l with
  | [] => r' = r
  | x :: l' =>
      exists state d n1 e1 s1,
        Storage.get_state t (storage r) = Some state /\
        a2c_get_action true (teval state) (net r) = (d, n1) /\
        fst x = wrap_action true d /\
        env_step (a_t (fst x)) (env r) = (snd x, e1) /\
        Storage.insert t (sd_rewards (snd x)) (sd_obs (snd x)) (a_t (fst x))
          (log_p_a_t (fst x)) (value (fst x)) (sd_dones (snd x))
          (a2c_features (fst x)) (storage r) = Some s1 /\
        rollout_chain (S t)
          (set_net (a2c_reset_recurrent_buffers (sd_dones (snd x)) n1)
             (set_storage s1 (set_env e1 (set_net n1 r))))
          l' r'
  end.

(** The runners of a training run, update by update: [updates_chain k r ws r']
    says that the updates [k], [k+1], ... run from [r] return, each from the
    runner its predecessor left, with the logs [ws], and leave [r']. *)
Fixpoint updates_chain (k : nat) (r : Runner) (ws : list (list event))
    (r' : Runner) : Prop :=
  match ws with
  | [] => r' = r
  | w :: ws' =>
      exists r1, update gamma k r = (Ok tt, r1, w) /\
                 updates_chain (S k) r1 ws' r'
  end.

(** The runner with another stored seed. *)
Definition set_seed (z : Z) (r : Runner) : Runner :=
  {| timestamp := timestamp r; seed := z; is_cuda := is_cuda r;
     params := params r; logger := logger r; env := env r;
     storage := storage r; net := net r |}.

Definition map_state {A : Type} (g : Runner -> Runner)
    (x : result A * Runner * list event) : result A * Runner * list event :=
  match x with (a, r', w) => (a, g r', w) end.

(** A method is blind to the seed when changing the seed of the object
    changes nothing but the seed of the object it leaves. *)
Definition seed_blind {A : Type} (m : M A) : Prop :=
  forall z r, m (set_seed z r) = map_state (set_seed z) (m r).

End WithCollaborators.

End Outcome.

(** ** Counting and following calls in the event log *)

Module Calls.
Import Torch Runner.

(** How many calls of the log are of the kind [p]. *)
Definition count (p : event -> bool) (w : list event) : nat :=
  length (filter p w).

Definition is_env_reset (e : event) : bool :=
  match e with EnvReset => true | _ => false end.

Definition is_env_close (e : event) : bool :=
  match e with EnvClose => true | _ => false end.

Definition is_query (e : event) : bool :=
  match e with GetAction _ _ => true | _ => false end.

Definition is_insert (e : event) : bool :=
  match e with Insert _ _ => true | _ => false end.

Definition is_icm_forward (e : event) : bool :=
  match e with IcmForward _ _ _ => true | _ => false end.

Definition is_backward (e : event) : bool :=
  match e with Backward _ _ => true | _ => false end.

Definition is_optimizer_step (e : event) : bool :=
  match e with OptimizerStep => true | _ => false end.

Definition is_after_update (e : event) : bool :=
  match e with AfterUpdate => true | _ => false end.

(** The calls that make up the learning part of an update. *)
Definition is_learning (e : event) : bool :=
  match e with
  | ZeroGrad | IcmForward _ _ _ | A2CLoss _ _ | CoeffRead _ | Backward _ _
  | ClipGradNorm _ | LoggerLog | OptimizerStep | AfterUpdate | CoeffStep
  | Print _ _ | PrintRewardStats => true
  | _ => false
  end.

(** The calls that make up the data collection of an update. *)
Definition is_collection (e : event) : bool :=
  match e with
  | GetState _ | GetAction _ _ | EnvStep _ _ | LogEpisodeRewards _ | Insert _ _
  | ResetRecurrent _ | CopyFeature _ => true
  | _ => false
  end.

(** The action batches executed by the environment, in order. *)
Definition env_actions (w : list event) : list (list nat) :=
  flat_map (fun e => match e with EnvStep a _ => [a] | _ => [] end) w.

(** The action batches that the agent proposed in the queries made with
    gradients enabled ([g = true]) or disabled ([g = false]), in order. *)
Definition query_actions (g : bool) (w : list event) : list (list nat) :=
  flat_map (fun e => match e with
                     | GetAction g' out => if Bool.eqb g g' then [a_t out] else []
                     | _ => []
                     end) w.

(** The update numbers that were reported by [print], in order. *)
Definition printed_updates (w : list event) : list nat :=
  flat_map (fun e => match e with Print k _ => [k] | _ => [] end) w.

(** The two reporting calls made for every hundredth update. *)
Definition is_print (e : event) : bool :=
  match e with
  | Print _ _ | PrintRewardStats => true
  | _ => false
  end.

End Calls.

(** ** What no method of the runner touches *)

Module Effects.
Import Torch Collab Runner Log Calls.

Section WithCollaborators.

Context {E N C : Type} `{Environment E} `{Network N} `{CoefficientSchedule C}.

Local Abbreviation Runner := (@Runner E N C).
Local Abbreviation M := (@Runner.M E N C).

(** The attributes and configuration options that stay what [__init__] made
    them: everything of [params] but the coefficient schedule, and the
    timestamp, seed, device flag and logger. *)
Definition config_kept (r r' : Runner) : Prop :=
  timestamp r' = timestamp r /\ seed r' = seed r /\ is_cuda r' = is_cuda r /\
  logger r' = logger r /\
  env_name (params r') = env_name (params r) /\
  num_updates (params r') = num_updates (params r) /\
  rollout_size (params r') = rollout_size (params r) /\
  num_envs (params r') = num_envs (params r) /\
  n_stack (params r') = n_stack (params r) /\
  value_coeff (params r') = value_coeff (params r) /\
  entropy_coeff (params r') = entropy_coeff (params r) /\
  max_grad_norm (params r') = max_grad_norm (params r).

(** A method is silent for the calls of kind [q] when it never makes one,
    whether it returns or raises, and keeps the configuration. *)
Definition silent (q : event -> bool) {A : Type} (m : M A) : Prop :=
  forall r : Runner,
    filter q (snd (m r)) = [] /\ config_kept r (snd (fst (m r))).

(** Two methods agree but for the calls of kind [q] when, from every runner,
    they return the same result, leave the same runner and make the same
    calls, those of kind [q] apart. *)
Definition agree_but (q : event -> bool) {A : Type} (m1 m2 : M A) : Prop :=
  forall r : Runner,
    fst (m1 r) = fst (m2 r) /\
    filter (fun e => negb (q e)) (snd (m1 r)) =
      filter (fun e => negb (q e)) (snd (m2 r)).

End WithCollaborators.

End Effects.

(** ** A toy run: one state, two actions, one environment *)

Module Toy.
Import Torch Collab Runner.

#[export] Instance toy_env : Environment unit := {|
  env_reset := fun e => ([0%R], e);
  env_step := fun _ e =>
    ({| sd_obs := [0%R]; sd_rewards := [1%R]; sd_dones := [false];
        sd_infos := [None] |}, e);
  env_close := fun e => e;
  observation_shape := fun _ => [1; 1; 1]%nat |}.

#[export] Instance toy_net : Network unit := {|
  a2c_get_action := fun _ _ n =>
    ({| ad_a_t := [0%nat]; ad_log_p := [0%R]; ad_entropy := 1%R;
        ad_value := [0%R]; ad_features := [1%R] |}, n);
  a2c_reset_recurrent_buffers := fun _ n => n;
  icm := fun _ _ actions n =>
    ((map (fun _ => 0%R) actions, map (fun _ => 0%R) actions,
      flat_map (fun _ => [0%R; 0%R]) actions), n);
  num_actions := fun _ => 2%nat;
  optimizer_zero_grad := fun n => n;
  backward := fun _ n => n;
  clip_grad_norm_ := fun _ n => n;
  optimizer_step := fun n => n;
  net_cuda := fun n => n |}.

#[export] Instance toy_coeff : CoefficientSchedule R := {|
  coeff_value := fun c => c;
  coeff_step := fun c => (c / 2)%R |}.

Definition toy_params (updates T : nat) : Params R := {|
  env_name := "toy";
  num_updates := updates;
  rollout_size := T;
  num_envs := 1;
  n_stack := 1;
  value_coeff := (1 / 2)%R;
  entropy_coeff := (1 / 100)%R;
  max_grad_norm := (1 / 2)%R;
  curiosity_coeff := 1%R |}.

(** A logger that keeps its data in the directory it is given. *)
Definition toy_logger (env_name timestamp log_dir : string) : TemporalLogger :=
  {| data_dir := log_dir |}.

Definition toy_runner (updates T : nat) : Runner :=
  init tt tt (toy_params updates T) false 42%Z "logs" "2019-01-01 00_00_00" false
       toy_logger.

Definition toy_gamma : R := (9 / 10)%R.

(** What the first update of the toy run with rollout size [T] computes. *)
Definition toy_transition : Storage.transition :=
  {| Storage.tr_rewards := [1%R]; Storage.tr_action := [0%nat];
     Storage.tr_log_prob := TLeaf A2C_log_prob [0%R];
     Storage.tr_value := TLeaf A2C_value [0%R];
     Storage.tr_dones := [false] |}.

Definition toy_terms (T : nat) : scalar * scalar * list R :=
  Storage.a2c_terms toy_gamma (repeat toy_transition T) (TConst [0%R]).

Definition toy_policy_loss (T : nat) : scalar := fst (fst (toy_terms T)).

Definition toy_value_loss (T : nat) : scalar := snd (fst (toy_terms T)).

Definition toy_entropy (T : nat) : scalar :=
  fold_left (fun acc _ => SAdd acc (SLeaf A2C_entropy 1)) (seq 0 T) (SConst 0).

Definition toy_feature (T : nat) : tensor := TLeaf ICM_feature (repeat 0%R T).

Definition toy_feature_pred (T : nat) : tensor :=
  TLeaf ICM_feature_pred (repeat 0%R T).

Definition toy_action_pred (T : nat) : tensor :=
  TLeaf ICM_action_pred (repeat 0%R (2 * T)).

(** The features recorded in slots [1 .. T]: those of the steps [1 .. T-1]
    and the one of the bootstrap query, as a slice of the feature tensor
    that holds the features of all steps. *)
Definition toy_recorded (T : nat) : tensor :=
  TView (Storage.cat (repeat (TLeaf A2C_features [1%R]) T ++ [TConst [1%R]]))
        (Storage.cat (repeat (TLeaf A2C_features [1%R]) (T - 1) ++ [TConst [1%R]])).

Definition toy_a2c_part (T : nat) : scalar :=
  SSub (SAdd (toy_policy_loss T) (SMul (SConst (1 / 2)) (toy_value_loss T)))
       (SMul (SConst (1 / 100)) (toy_entropy T)).

Definition toy_forward_loss (T : nat) : scalar :=
  mse_loss (toy_feature_pred T) (toy_feature T).

Definition toy_inverse_loss (T : nat) : scalar :=
  SCrossEntropy (toy_action_pred T) 2 (repeat 0%nat T).

Definition toy_curiosity (T : nat) : scalar :=
  SMean (TPow2 (TSub (toy_recorded T) (TDetach (toy_feature_pred T)))).

Definition toy_loss (T : nat) : scalar :=
  SSub (SAdd (toy_a2c_part T) (SAdd (toy_forward_loss T) (toy_inverse_loss T)))
       (SMul (SConst 1) (toy_curiosity T)).

(** The total objective as the specification writes it (section 4.3), with
    one forward-loss quantity [forward_loss] in both places, for the
    configuration and the loss terms of the first toy update. *)
Definition toy_claimed (T : nat) (forward_loss : R) : R :=
  let p := params (toy_runner 1 T) in
  (seval (toy_policy_loss T) + value_coeff p * seval (toy_value_loss T)
   - entropy_coeff p * seval (toy_entropy T)
   + forward_loss + seval (toy_inverse_loss T)
   - coeff_value (curiosity_coeff p) * forward_loss)%R.

(** A two-step trajectory of one environment whose first step ends an
    episode. *)
Definition done_trajectory : list Storage.transition :=
  [ {| Storage.tr_rewards := [1%R]; Storage.tr_action := [0%nat];
       Storage.tr_log_prob := TConst [0%R]; Storage.tr_value := TConst [0%R];
       Storage.tr_dones := [true] |};
    {| Storage.tr_rewards := [1%R]; Storage.tr_action := [0%nat];
       Storage.tr_log_prob := TConst [0%R]; Storage.tr_value := TConst [0%R];
       Storage.tr_dones := [false] |} ].

End Toy.

(** ** Properties of the buffer *)

Module StorageFacts.
Import Torch Storage.

Lemma write_app : forall (A : Type) (pre : list (option A)) y old (x : A),
  write (length pre) x (pre ++ y :: old) = Some (pre ++ Some x :: old).
Proof.
  induction pre as [|z pre IH]; intros; simpl; [reflexivity|].
  now rewrite IH.
Qed.

Lemma write_at : forall (A : Type) (pre : list (option A)) y old (x : A) t,
  length pre = t -> write t x (pre ++ y :: old) = Some (pre ++ Some x :: old).
Proof. intros A pre y old x t <-. apply write_app. Qed.



Lemma nth_error_pre : forall (A : Type) (pre old : list A) y,
  nth_error (pre ++ y :: old) (length pre) = Some y.
Proof.
  induction pre; simpl; auto.
Qed.

(** [insert] at the first free index of the three tables. *)
Lemma insert_app : forall s t rw obs a lp v dn ft tpre ty told fpre fy fold spre sy sold,
  steps s = tpre ++ ty :: told -> length tpre = t ->
  features s = fpre ++ fy :: fold -> length fpre = t ->
  states s = spre ++ sy :: sold -> length spre = S t ->
  insert t rw obs a lp v dn ft s =
    Some {| rollout_size := rollout_size s; num_envs := num_envs s;
            frame_shape := frame_shape s; n_stack := n_stack s; cuda := cuda s;
            states := spre ++ Some (obs2tensor obs) :: sold;
            steps := tpre ++ Some {| tr_rewards := rw; tr_action := a;
                                     tr_log_prob := lp; tr_value := v;
                                     tr_dones := dn |} :: told;
            features := fpre ++ Some ft :: fold |}.
Proof.
  intros s t rw obs a lp v dn ft tpre ty told fpre fy fold spre sy sold
         Ht Hlt Hf Hlf Hs Hls.
  unfold insert. rewrite Ht, Hf, Hs.
  rewrite <- Hlt at 1. rewrite write_app.
  rewrite <- Hlf at 1. rewrite write_app.
  rewrite <- Hls at 1. rewrite write_app.
  reflexivity.
Qed.

End StorageFacts.

(** ** Properties of the runner *)

Module RunnerFacts.
Import Torch Collab Runner Log Outcome StorageFacts.

Section WithCollaborators.

Context {E N C : Type} `{Environment E} `{Network N} `{CoefficientSchedule C}.
Variable gamma : R.

Local Abbreviation Runner := (@Runner E N C).
Local Abbreviation M := (@Runner.M E N C).
Local Abbreviation update_loss := (Outcome.update_loss gamma).
Local Abbreviation update_tail := (Outcome.update_tail gamma).
Local Abbreviation update_outcome := (Outcome.update_outcome gamma).
Local Abbreviation update_run := (Outcome.update_run gamma).
Local Abbreviation train_outcome := (Outcome.train_outcome gamma).
Local Abbreviation updates_chain := (Outcome.updates_chain gamma).

Lemma same_config_refl : forall r : Runner, same_config r r.
Proof. unfold same_config; intuition. Qed.

Ltac run_method :=
  repeat (progress (unfold bind, storage_get_state, gets, of_option, emit, ret,
                      raise, net_get_action, env_do_step, call_net, call_env,
                      update_storage, update_net, update_env, update_coeff,
                      local_step, net_icm;
                    cbn -[rollout_loop for_each Nat.modulo Nat.eqb])).

Lemma rollout_loop_cons : forall t rest loc (r : Runner),
  rollout_loop (t :: rest) loc r =
  match Storage.get_state t (storage r) with
  | None => (Raise IndexError, r, [])
  | Some state =>
      match a2c_get_action true (teval state) (net r) with
      | (d, n') =>
          let out := wrap_action true d in
          match env_step (a_t out) (env r) with
          | (sd, e') =>
              match Storage.insert t (sd_rewards sd) (sd_obs sd) (a_t out)
                      (log_p_a_t out) (value out) (sd_dones sd) (a2c_features out)
                      (storage r) with
              | None =>
                  (Raise IndexError, set_env e' (set_net n' r),
                   [GetState t; GetAction true out; EnvStep (a_t out) (sd_dones sd);
                    LogEpisodeRewards (sd_infos sd)])
              | Some s' =>
                  match rollout_loop rest
                          {| episode_entropy := SAdd (episode_entropy loc) (entropy out);
                             step := Some t |}
                          (set_net (a2c_reset_recurrent_buffers (sd_dones sd) n')
                             (set_storage s' (set_env e' (set_net n' r)))) with
                  | (x, r2, w) => (x, r2, block t (out, sd) ++ w)
                  end
              end
          end
      end
  end.
Proof.
  intros. cbn [rollout_loop]. run_method.
  destruct (Storage.get_state t (storage r)) as [state|]; [|reflexivity].
  run_method.
  destruct (a2c_get_action true (teval state) (net r)) as [d n'].
  run_method.
  destruct (env_step (ad_a_t d) (env r)) as [sd e'].
  run_method.
  destruct (Storage.insert t _ _ _ _ _ _ _ (storage r)) as [s'|]; [|reflexivity].
  run_method.
  destruct (rollout_loop rest _ _) as [[x r2] w].
  reflexivity.
Qed.

Lemma get_state_pre : forall (s : Storage.RolloutStorage) spre sold t,
  Storage.states s = spre ++ sold -> (t < length spre)%nat ->
  exists x, Storage.get_state t s = Some x.
Proof.
  intros s spre sold t Hs Hlt. unfold Storage.get_state.
  rewrite Hs, nth_error_app1 by assumption.
  destruct (nth_error spre t) as [o|] eqn:Ho.
  - eexists; reflexivity.
  - apply nth_error_None in Ho. lia.
Qed.

Lemma rollout_loop_ok : forall n t loc (r : Runner) tpre told fpre fold spre sold,
  Storage.steps (storage r) = tpre ++ told -> length tpre = t ->
  (n <= length told)%nat ->
  Storage.features (storage r) = fpre ++ fold -> length fpre = t ->
  (n <= length fold)%nat ->
  Storage.states (storage r) = spre ++ sold -> length spre = S t ->
  (n <= length sold)%nat ->
  exists l r',
    rollout_loop (seq t n) loc r =
      (Ok {| episode_entropy := entropy_sum (episode_entropy loc) l;
             step := match n with O => step loc | S m => Some (t + m)%nat end |},
       r', blocks t l) /\
    length l = n /\ Forall with_grad l /\ same_config r r' /\
    Storage.steps (storage r') =
      tpre ++ map (fun x => Some (transition_of x)) l ++ skipn n told /\
    Storage.features (storage r') =
      fpre ++ map (fun x => Some (feature_of x)) l ++ skipn n fold /\
    Storage.states (storage r') =
      spre ++ map (fun x => Some (state_of x)) l ++ skipn n sold.
Proof.
  induction n as [|n IH];
    intros t loc r tpre told fpre fold spre sold Ht Hlt Hnt Hf Hlf Hnf Hs Hls Hns.
  - exists [], r. cbn. destruct loc. cbn.
    repeat split; auto using same_config_refl.
  - destruct told as [|ty told]; [cbn in Hnt; lia|].
    destruct fold as [|fy fold]; [cbn in Hnf; lia|].
    destruct sold as [|sy sold]; [cbn in Hns; lia|].
    cbn [seq]. rewrite rollout_loop_cons.
    destruct (@get_state_pre (storage r) spre (sy :: sold) t Hs) as [state ->];
      [lia|].
    destruct (a2c_get_action true (teval state) (net r)) as [d n'] eqn:Hd.
    cbv zeta.
    destruct (env_step (a_t (wrap_action true d)) (env r)) as [sd e'] eqn:Hsd.
    erewrite insert_app; eauto.
    match goal with
    | |- context [rollout_loop _ ?loc1 ?r1] =>
        destruct (IH (S t) loc1 r1
                    (tpre ++ [Some (transition_of (wrap_action true d, sd))]) told
                    (fpre ++ [Some (feature_of (wrap_action true d, sd))]) fold
                    (spre ++ [Some (state_of (wrap_action true d, sd))]) sold)
          as (l & r' & Hrun & Hlen & Hgrad & Hcfg & Hst & Hft & Hss)
    end;
      try (cbn; rewrite <- app_assoc; reflexivity);
      try (rewrite length_app; cbn; lia);
      try (cbn in *; lia).
    exists ((wrap_action true d, sd) :: l), r'.
    rewrite Hrun. cbn [blocks entropy_sum fold_left fst snd episode_entropy].
    split.
    { assert (Hstep : match n with
                      | O => Some t
                      | S m => Some (S t + m)%nat
                      end = Some (t + n)%nat)
        by (destruct n; f_equal; lia).
      cbn [step]. rewrite Hstep. reflexivity. }
    split; [cbn; lia|].
    split; [constructor; [exists d; reflexivity | assumption]|].
    split.
    { destruct Hcfg as (c1 & c2 & c3 & c4 & c5 & c6).
      unfold same_config. cbn in *. repeat split; assumption. }
    rewrite Hst, Hft, Hss. cbn. rewrite <- !app_assoc. repeat split; reflexivity.
Qed.

Lemma skipn_length_nil : forall (A : Type) (l : list A) n,
  length l = n -> skipn n l = [].
Proof. intros A l n <-. apply skipn_all. Qed.

Lemma episode_rollout_ok : forall r : Runner,
  runner_wf r -> (0 < rollout_size (params r))%nat ->
  exists l fin r', rollout_outcome r l fin r'.
Proof.
  intros r [(Hs & Ht & Hf) HT] Hpos. rewrite HT in Hs, Ht, Hf.
  set (T := rollout_size (params r)) in *.
  destruct (Storage.states (storage r)) as [|s0 sold] eqn:Es; [discriminate|].
  cbn in Hs. injection Hs as Hs.
  destruct (@rollout_loop_ok T 0%nat {| episode_entropy := SConst 0; step := None |} r
              [] (Storage.steps (storage r)) [] (Storage.features (storage r))
              [s0] sold)
    as (l & r1 & Hrun & Hlen & Hgrad & Hcfg & Hst & Hft & Hss);
    try reflexivity; try lia; try assumption.
  rewrite (skipn_length_nil _ Ht) in Hst.
  rewrite (skipn_length_nil _ Hs) in Hss.
  rewrite !app_nil_r in *. cbn [app] in *.
  assert (Ef : length (skipn T (Storage.features (storage r))) = 1%nat)
    by (rewrite length_skipn, Hf; lia).
  destruct (skipn T (Storage.features (storage r))) as [|fy [|? ?]];
    try discriminate Ef. clear Ef.
  destruct (@get_state_pre (storage r1) _ [] T (eq_sym (app_nil_r _ ))) as [state Hstate].
  { rewrite Hss. cbn. rewrite length_map. lia. }
  destruct (a2c_get_action false (teval state) (net r1)) as [d n'] eqn:Hd.
  exists l, (wrap_action false d).
  eexists. unfold rollout_outcome. fold T.
  split.
  { unfold episode_rollout. run_method. fold T. rewrite Hrun.
    destruct T as [|m] eqn:ET; [lia|]. cbn [step Nat.add].
    replace (m + 1)%nat with (S m) by lia.
    run_method. rewrite Hstate. run_method. rewrite Hd. run_method.
    unfold Storage.copy_feature. rewrite Hft.
    rewrite write_at by (rewrite length_map; lia). run_method. reflexivity. }
  split; [assumption|]. split; [assumption|].
  split; [exists d; reflexivity|].
  split.
  { destruct Hcfg as (c1 & c2 & c3 & c4 & c5 & c6).
    unfold same_config. cbn. repeat split; assumption. }
  cbn. rewrite Hst, Hss, Es. repeat split; reflexivity.
Qed.

Lemma update_ok : forall k (r : Runner),
  runner_wf r -> (0 < rollout_size (params r))%nat ->
  exists l fin self f fp ap r', update_outcome k r l fin self f fp ap r'.
Proof.
  intros k r Hwf Hpos.
  destruct (episode_rollout_ok Hwf Hpos) as (l & fin & r1 & Hout).
  pose proof Hout as (Hrun & Hlen & Hgrad & Hfin & Hcfg & Hst & Hft & Hss).
  destruct Hcfg as (c1 & c2 & c3 & c4 & c5 & c6).
  destruct (icm (num_envs (params r1)) (teval (Storage.all_states (storage r1)))
              (Storage.all_actions (storage r1)) (optimizer_zero_grad (net r1)))
    as [[[f fp] ap] n2] eqn:Hicm.
  exists l, fin, (set_net n2 r1), f, fp, ap.
  eexists. unfold update_outcome. exists r1, n2.
  split; [exact Hout|]. split; [exact Hicm|]. split; [reflexivity|].
  split.
  { unfold update. unfold bind at 1. rewrite Hrun.
    run_method. rewrite Hicm. run_method.
    unfold update_tail, update_loss, Storage.a2c_loss, Storage.a2c_terms.
    run_method.
    destruct (k mod 100 =? 0)%nat; run_method; rewrite <- ?app_assoc; reflexivity. }
  destruct Hwf as [(w1 & w2 & w3) w4].
  split.
  { unfold runner_wf, Storage.wf. cbn.
    rewrite !repeat_length. rewrite c1. repeat split; congruence. }
  cbn. rewrite c1, c2, c3, c4. repeat split; reflexivity.
Qed.

Lemma Forall2_seq_shift : forall (A : Type) (P : nat -> A -> Prop) n a ws,
  Forall2 (fun i => P (S i)) (seq a n) ws -> Forall2 P (seq (S a) n) ws.
Proof.
  induction n as [|n IH]; intros a ws Hall; cbn in *; inversion Hall; subst;
    constructor; auto.
Qed.

Lemma params_at_0 : forall r : Runner, params_at 0 r = params r.
Proof. intros [? ? ? [] ? ? ? ?]. reflexivity. Qed.

Lemma params_at_step : forall i (r r1 : Runner),
  params r1 = params_at 1 r -> params_at i r1 = params_at (S i) r.
Proof.
  intros i r r1 Hp. unfold params_at, set_coeff in *. cbn -[Nat.iter] in *.
  rewrite Hp. cbn -[Nat.iter]. rewrite (Nat.iter_succ_r i). reflexivity.
Qed.

Arguments params_at_step : clear implicits.

Lemma for_each_update_ok : forall n k (r : Runner),
  runner_wf r -> (0 < rollout_size (params r) \/ n = 0)%nat ->
  exists r' ws,
    for_each (seq k n) (update gamma) r = (Ok tt, r', concat ws) /\
    Forall2 (fun i w => update_run (k + i) (params_at i r) w) (seq 0 n) ws /\
    runner_wf r' /\
    params r' = params_at n r /\
    timestamp r' = timestamp r /\ logger r' = logger r /\ seed r' = seed r.
Proof.
  induction n as [|n IH]; intros k r Hwf Hpos0.
  - exists r, []. cbn [seq for_each concat Nat.iter].
    split; [reflexivity|]. split; [constructor|]. split; [assumption|].
    split; [|auto]. symmetry; apply params_at_0.
  - assert (Hpos : (0 < rollout_size (params r))%nat)
      by (destruct Hpos0 as [Hpos|]; [exact Hpos | discriminate]).
    destruct (update_ok k Hwf Hpos) as (l & fin & self & f & fp & ap & r1 & Hout).
    pose proof Hout as (r0 & n2 & _ & _ & _ & Hrun & Hwf1 & Hp1 & Ht1 & Hl1 & Hs1).
    change (params r1 = params_at 1 r) in Hp1.
    assert (Hpos1 : (0 < rollout_size (params r1))%nat) by (rewrite Hp1; exact Hpos).
    destruct (IH (S k) r1 Hwf1 (or_introl Hpos1))
      as (r' & ws & Hloop & Hall & Hwf' & Hp' & Ht' & Hl' & Hs').
    exists r', (snd (update gamma k r) :: ws).
    split.
    { cbn [seq for_each]. unfold bind. rewrite Hrun, Hloop. reflexivity. }
    split.
    { cbn [seq]. constructor.
      - rewrite Nat.add_0_r.
        exists r, l, fin, self, f, fp, ap, r1. rewrite Hrun. cbn [snd].
        split; [exact Hwf|]. split; [exact Hpos|].
        split; [symmetry; apply params_at_0|].
        split; [exact Hout|reflexivity].
      - apply Forall2_seq_shift.
        eapply Forall2_impl; [|exact Hall].
        intros i w Hw. cbn beta in Hw.
        replace (k + S i)%nat with (S k + i)%nat by lia.
        rewrite (params_at_step i r r1 Hp1) in Hw. exact Hw. }
    split; [assumption|].
    split; [rewrite Hp'; apply (params_at_step n r r1 Hp1)|].
    repeat split; congruence.
Qed.

(** The runner that [__init__] builds is well formed. *)
Lemma init_wf :
  forall net0 env0 (params0 : Params C) is_cuda0 seed0 log_dir now avail new_logger,
  runner_wf (init net0 env0 params0 is_cuda0 seed0 log_dir now avail new_logger).
Proof.
  intros. unfold runner_wf, Storage.wf, init. cbn.
  rewrite !repeat_length. repeat split; reflexivity.
Qed.

Lemma train_ok : forall r : Runner,
  runner_wf r ->
  (0 < rollout_size (params r) \/ num_updates (params r) = 0)%nat ->
  exists ws r', train_outcome r ws r'.
Proof.
  intros r Hwf Hpos.
  destruct (env_reset (env r)) as [obs e'] eqn:Hreset.
  pose proof Hwf as [(Hs & Ht & Hf) HT].
  destruct (Storage.states (storage r)) as [|s0 sold] eqn:Es; [discriminate|].
  set (r0 := set_storage (Storage.set_states (Some (Storage.obs2tensor obs) :: sold)
                            (storage r)) (set_env e' r)).
  assert (Hwf0 : runner_wf r0).
  { unfold runner_wf, Storage.wf, r0. cbn. cbn in Hs. repeat split; assumption. }
  assert (Hpos0 : (0 < rollout_size (params r0) \/ num_updates (params r) = 0)%nat)
    by exact Hpos.
  destruct (@for_each_update_ok (num_updates (params r)) 0 r0 Hwf0 Hpos0)
    as (r1 & ws & Hloop & Hall & Hwf1 & Hp1 & Ht1 & Hl1 & Hs1).
  exists ws. eexists. split.
  - unfold train. run_method. rewrite Hreset. run_method.
    unfold Storage.copy_state. rewrite Es. run_method.
    fold r0. rewrite Hloop. run_method.
    rewrite Hl1, Ht1. cbn. reflexivity.
  - exact Hall.
Qed.

(** *** The log of a rollout *)


Lemma filter_blocks_nil : forall (p : event -> bool) l t,
  (forall t' x, filter p (block t' x) = []) -> filter p (blocks t l) = [].
Proof.
  intros p l t Hp. revert t.
  induction l as [|x l IH]; intros t; cbn [blocks]; [reflexivity|].
  rewrite filter_app, Hp, IH. reflexivity.
Qed.

Lemma flat_map_blocks_nil : forall (B : Type) (g : event -> list B) l t,
  (forall t' x, flat_map g (block t' x) = []) -> flat_map g (blocks t l) = [].
Proof.
  intros B g l t Hg. revert t.
  induction l as [|x l IH]; intros t; cbn [blocks]; [reflexivity|].
  rewrite flat_map_app, Hg, IH. reflexivity.
Qed.

Lemma filter_env_step_blocks : forall l t,
  length (filter is_env_step (blocks t l)) = length l.
Proof.
  induction l as [|x l IH]; intros t; cbn; [reflexivity|].
  f_equal. apply IH.
Qed.

(** (C9) With [rollout_size = 0] the loop body never runs, the loop variable
    [step] stays unbound, and [episode_rollout] raises at [step + 1] before
    any call to a collaborator: it returns no bootstrap value. *)
Theorem C9_rollout_size_zero_raises : forall r : Runner,
  rollout_size (params r) = 0%nat ->
  episode_rollout r = (Raise (UnboundLocalError "step"), r, []).
Proof.
  intros r HT. unfold episode_rollout. run_method. rewrite HT. reflexivity.
Qed.


(** In the log of the rollout steps [t ..] followed by the bootstrap query,
    whatever follows an environment step is the insert and the reset with
    the same done flags, and then the next [get_state]. *)
Lemma blocks_after_env_step : forall l t fin pre a d post,
  blocks t l ++ [GetState (t + length l); GetAction false fin;
                 CopyFeature (t + length l)]
    = pre ++ EnvStep a d :: post ->
  exists infos t' post',
    post = LogEpisodeRewards infos :: Insert t' d :: ResetRecurrent d
             :: GetState (S t') :: post'.
Proof.
  induction l as [|x l IH]; intros t fin pre a d post Heq.
  - cbn in Heq.
    destruct pre as [|e0 [|e1 [|e2 [|e3 pre]]]]; cbn in Heq; discriminate.
  - cbn [blocks block length app] in Heq.
    destruct pre as [|e0 [|e1 [|e2 [|e3 [|e4 [|e5 pre]]]]]];
      cbn [app] in Heq; try discriminate.
    + injection Heq as _ _ _ Hd Hpost. subst d.
      destruct l as [|y l].
      * cbn in Hpost. rewrite Nat.add_1_r in Hpost.
        do 3 eexists. rewrite <- Hpost. reflexivity.
      * cbn in Hpost. do 3 eexists. rewrite <- Hpost. reflexivity.
    + injection Heq as _ _ _ _ _ _ Heq.
      replace (t + S (length l))%nat with (S t + length l)%nat in Heq by lia.
      exact (IH _ _ _ _ _ _ Heq).
Qed.

(** A rollout loop that returns went through its steps one by one. *)
Lemma rollout_loop_chain : forall n t loc (r : Runner) loc' r' w,
  rollout_loop (seq t n) loc r = (Ok loc', r', w) ->
  exists l,
    length l = n /\ w = blocks t l /\
    episode_entropy loc' = entropy_sum (episode_entropy loc) l /\
    step loc' = match n with O => step loc | S m => Some (t + m)%nat end /\
    rollout_chain t r l r'.
Proof.
  induction n as [|n IH]; intros t loc r loc' r' w Hrun.
  - cbn in Hrun. injection Hrun as <- <- <-. exists [].
    repeat split; reflexivity.
  - cbn [seq] in Hrun. rewrite rollout_loop_cons in Hrun.
    destruct (Storage.get_state t (storage r)) as [state|] eqn:Hs; [|discriminate].
    destruct (a2c_get_action true (teval state) (net r)) as [d n1] eqn:Hd.
    cbv zeta in Hrun.
    destruct (env_step (a_t (wrap_action true d)) (env r)) as [sd e1] eqn:He.
    destruct (Storage.insert t (sd_rewards sd) (sd_obs sd) (a_t (wrap_action true d))
                (log_p_a_t (wrap_action true d)) (value (wrap_action true d))
                (sd_dones sd) (a2c_features (wrap_action true d)) (storage r))
      as [s1|] eqn:Hi; [|discriminate].
    match type of Hrun with
    | context [rollout_loop ?range ?loc1 ?r1] =>
        destruct (rollout_loop range loc1 r1) as [[x r2] w2] eqn:Hloop
    end.
    injection Hrun as -> -> <-.
    destruct (IH _ _ _ _ _ _ Hloop) as (l & Hlen & Hw & Hent & Hstep & Hchain).
    exists ((wrap_action true d, sd) :: l).
    split; [cbn; lia|]. split; [cbn [blocks]; rewrite Hw; reflexivity|].
    split; [rewrite Hent; reflexivity|].
    split.
    { rewrite Hstep. destruct n; cbn [step]; f_equal; lia. }
    cbn [Outcome.rollout_chain fst snd].
    exists state, d, n1, e1, s1.
    repeat (split; [first [assumption | reflexivity]|]). exact Hchain.
Qed.

(** A rollout that returns: its steps one by one, then the bootstrap query
    on the network and the buffer that the last step left. *)
Lemma episode_rollout_chain : forall (r : Runner) x r' w,
  episode_rollout r = (Ok x, r', w) ->
  exists l fin r1 state d n1,
    length l = rollout_size (params r) /\
    rollout_chain 0 r l r1 /\
    Storage.get_state (rollout_size (params r)) (storage r1) = Some state /\
    a2c_get_action false (teval state) (net r1) = (d, n1) /\
    fin = wrap_action false d /\
    x = (value fin, entropy_sum (SConst 0) l) /\
    w = blocks 0 l ++ [GetState (rollout_size (params r)); GetAction false fin;
                       CopyFeature (rollout_size (params r))].
Proof.
  intros r x r' w Hrun. unfold episode_rollout in Hrun.
  unfold bind at 1 in Hrun. unfold gets at 1 in Hrun. cbn beta iota in Hrun.
  unfold bind at 1 in Hrun.
  destruct (rollout_loop (seq 0 (rollout_size (params r)))
              {| episode_entropy := SConst 0; step := None |} r)
    as [[[loc'|e] r1] w1] eqn:Hloop; [|discriminate].
  destruct (rollout_loop_chain _ _ _ _ Hloop) as (l & Hlen & -> & Hent & Hstep & Hchain).
  cbn [episode_entropy step] in Hent, Hstep.
  revert Hrun. run_method. rewrite Hstep.
  destruct (rollout_size (params r)) as [|m] eqn:HT; run_method; [discriminate|].
  replace (m + 1)%nat with (S m) by lia.
  destruct (Storage.get_state (S m) (storage r1)) as [state|] eqn:Hs;
    run_method; [|discriminate].
  destruct (a2c_get_action false (teval state) (net r1)) as [d n1] eqn:Hd.
  run_method.
  match goal with
  | |- context [Storage.copy_feature ?t ?x ?s] =>
      destruct (Storage.copy_feature t x s) as [s1|] eqn:Hc
  end; run_method; [|discriminate].
  intros Hrun. injection Hrun as <- <- <-.
  exists l, (wrap_action false d), r1, state, d, n1.
  split; [exact Hlen|]. split; [exact Hchain|]. split; [exact Hs|].
  split; [exact Hd|]. split; [reflexivity|].
  split; [rewrite Hent; reflexivity|]. reflexivity.
Qed.

(** (C7) In every rollout, whatever environment step returned the done flags
    [d] is followed by the insert of that transition and then by the reset of
    the agent's recurrent state with the same flags [d], and only then by the
    next [get_state]; a rollout of size [T] has [T] such steps.  The reset is
    not only called, it is applied: every step (and, after the last one, the
    bootstrap query) reads its state from the buffer that the previous
    [insert] left and queries the network that the previous reset with the
    done flags left ([rollout_chain]). *)
Theorem C7_reset_before_next_get_state : forall r : Runner,
  runner_wf r -> (0 < rollout_size (params r))%nat ->
  exists l fin r1 r' w,
    episode_rollout r = (Ok (value fin, entropy_sum (SConst 0) l), r', w) /\
    length (filter is_env_step w) = rollout_size (params r) /\
    (forall pre a d post,
       w = pre ++ EnvStep a d :: post ->
       exists infos t post',
         post = LogEpisodeRewards infos :: Insert t d :: ResetRecurrent d
                  :: GetState (S t) :: post') /\
    length l = rollout_size (params r) /\
    rollout_chain 0 r l r1 /\
    exists state d n1,
      Storage.get_state (rollout_size (params r)) (storage r1) = Some state /\
      a2c_get_action false (teval state) (net r1) = (d, n1) /\
      fin = wrap_action false d.
Proof.
  intros r Hwf Hpos.
  destruct (episode_rollout_ok Hwf Hpos) as (l0 & fin0 & r' & Hrun0 & _).
  destruct (episode_rollout_chain _ Hrun0)
    as (l & fin & r1 & state & d & n1 & Hlen & Hchain & Hs & Hd & Hfin & Hx & Hw).
  exists l, fin, r1, r'. eexists.
  split; [rewrite Hrun0, Hx; reflexivity|].
  rewrite Hw. split.
  { rewrite filter_app, length_app, filter_env_step_blocks, Hlen. cbn. lia. }
  split.
  { intros pre a d' post Heq.
    eapply blocks_after_env_step with (t := 0%nat).
    cbn [Nat.add]. rewrite Hlen. exact Heq. }
  split; [exact Hlen|]. split; [exact Hchain|].
  exists state, d, n1. split; [exact Hs|]. split; [exact Hd | exact Hfin].
Qed.

(** *** The log of an update *)

Lemma update_run_log : forall k p w,
  update_run k p w ->
  exists l fin (self : Runner) F FP AP,
    params self = p /\
    w = (blocks 0 l ++ [GetState (rollout_size p); GetAction false fin;
                        CopyFeature (rollout_size p)]) ++
        update_tail k self (entropy_sum (SConst 0) l) (value fin) F FP AP.
Proof.
  intros k p w (r & l & fin & self & f & fp & ap & r' & _ & _ & Hp & Hout & Hrun).
  destruct Hout as (r1 & n2 & Hroll & _ & Hself & Hrun' & _).
  destruct Hroll as (_ & _ & _ & _ & (c1 & _) & _).
  rewrite Hrun in Hrun'. injection Hrun' as Hw. subst p.
  exists l, fin, self, (TLeaf ICM_feature f), (TLeaf ICM_feature_pred fp),
    (TLeaf ICM_action_pred ap).
  split; [subst self; exact c1 | exact Hw].
Qed.

Lemma update_tail_schedule : forall k (self : Runner) e fv F FP AP,
  filter is_schedule (update_tail k self e fv F FP AP) =
    [CoeffRead (coeff_value (curiosity_coeff (params self)));
     Backward (update_loss self e fv F FP AP) false; OptimizerStep; CoeffStep].
Proof.
  intros. unfold update_tail. destruct (k mod 100 =? 0)%nat; reflexivity.
Qed.

Lemma update_tail_optimization : forall k (self : Runner) e fv F FP AP,
  filter is_optimization (update_tail k self e fv F FP AP) =
    [ZeroGrad; Backward (update_loss self e fv F FP AP) false;
     ClipGradNorm (max_grad_norm (params self)); OptimizerStep].
Proof.
  intros. unfold update_tail. destruct (k mod 100 =? 0)%nat; reflexivity.
Qed.

Lemma update_tail_teardown : forall k (self : Runner) e fv F FP AP,
  filter is_teardown (update_tail k self e fv F FP AP) = [].
Proof.
  intros. unfold update_tail. destruct (k mod 100 =? 0)%nat; reflexivity.
Qed.

Lemma update_tail_zero_grad : forall k (self : Runner) e fv F FP AP,
  filter is_zero_grad (update_tail k self e fv F FP AP) = [ZeroGrad].
Proof.
  intros. unfold update_tail. destruct (k mod 100 =? 0)%nat; reflexivity.
Qed.

(** Filtering the log of an update: the rollout contributes nothing to the
    classes of calls below. *)
Lemma filter_update_log : forall (p : event -> bool) l T fin tail,
  (forall t x, filter p (block t x) = []) ->
  p (GetState T) = false -> p (GetAction false fin) = false ->
  p (CopyFeature T) = false ->
  filter p ((blocks 0 l ++ [GetState T; GetAction false fin; CopyFeature T]) ++ tail)
    = filter p tail.
Proof.
  intros p l T fin tail Hb Hp1 Hp2 Hp3.
  rewrite !filter_app, filter_blocks_nil by exact Hb.
  cbn. rewrite Hp1, Hp2, Hp3. reflexivity.
Qed.

(** (C5) In a training run the coefficient schedule is stepped exactly once
    in every update, after the optimizer step of that update and never
    before it, and the loss that update [k] propagates backward was assembled
    with the coefficient value read before that step, which is the value at
    the start of update [k]: the initial schedule advanced [k] times. *)
Theorem C5_schedule_stepped_after_optimizer : forall r : Runner,
  runner_wf r -> (0 < rollout_size (params r))%nat ->
  exists ws r',
    train gamma r =
      (Ok tt, r',
       [EnvReset; CopyState 0] ++ concat ws ++
       [EnvClose; LoggerSave; ParamsSave (data_dir (logger r)) (timestamp r)]) /\
    Forall2 (fun k w =>
               let v := coeff_value (Nat.iter k coeff_step (curiosity_coeff (params r))) in
               exists L,
                 filter is_schedule w =
                   [CoeffRead v; Backward L false; OptimizerStep; CoeffStep] /\
                 coeff_factor L = Some v)
            (seq 0 (num_updates (params r))) ws.
Proof.
  intros r Hwf Hpos.
  destruct (train_ok Hwf (or_introl Hpos)) as (ws & r' & Hrun & Hall).
  exists ws, r'. split; [exact Hrun|].
  eapply Forall2_impl; [|exact Hall].
  intros k w Hw. cbv zeta.
  destruct (update_run_log Hw) as (l & fin & self & F & FP & AP & Hp & ->).
  exists (update_loss self (entropy_sum (SConst 0) l) (value fin) F FP AP).
  rewrite filter_update_log by reflexivity.
  rewrite update_tail_schedule. split.
  - rewrite Hp. reflexivity.
  - unfold update_loss, assemble_loss. cbn [coeff_factor]. rewrite Hp. reflexivity.
Qed.

(** The network that a successful update leaves. *)
Lemma update_outcome_net : forall k (r : Runner) l fin self f fp ap r',
  update_outcome k r l fin self f fp ap r' ->
  exists r1 n2,
    rollout_outcome r l fin r1 /\
    icm (num_envs (params r1)) (teval (Storage.all_states (storage r1)))
        (Storage.all_actions (storage r1)) (optimizer_zero_grad (net r1))
      = ((f, fp, ap), n2) /\
    self = set_net n2 r1 /\
    net r' =
      optimizer_step
        (clip_grad_norm_ (max_grad_norm (params r))
           (backward
              (update_loss self (entropy_sum (SConst 0) l) (value fin)
                 (TLeaf ICM_feature f) (TLeaf ICM_feature_pred fp)
                 (TLeaf ICM_action_pred ap))
              n2)).
Proof.
  intros k r l fin self f fp ap r' (r1 & n2 & Hroll & Hicm & Hself & Hrun & _).
  exists r1, n2. split; [exact Hroll|]. split; [exact Hicm|].
  split; [exact Hself|].
  pose proof Hroll as (Hroll_run & _ & _ & _ & (c1 & _) & _).
  revert Hrun. unfold update. unfold bind at 1. rewrite Hroll_run.
  run_method. rewrite Hicm. run_method.
  unfold Storage.a2c_loss, Storage.a2c_terms. run_method.
  destruct (k mod 100 =? 0)%nat; run_method;
    intros Hrun; injection Hrun as <- _; subst self; cbn [net set_net set_storage set_coeff];
    rewrite c1; reflexivity.
Qed.

(** (C6) In every update the optimization step consists of, in this order
    and each exactly once: zeroing the gradients, the backward pass of the
    total objective of this update without retaining the graph, clipping the
    gradient norm of the network's parameters to the configured
    [max_grad_norm], and the optimizer step.  The four calls are applied to
    the network one after the other: the gradients of the network that the
    rollout left are zeroed, the curiosity module runs on it, the loss
    assembled from this rollout and this forward pass is propagated backward,
    the gradients are clipped and the optimizer steps; the result is the
    network of the runner that the update leaves. *)
Theorem C6_optimization_step_order : forall k (r : Runner),
  runner_wf r -> (0 < rollout_size (params r))%nat ->
  exists l fin self f fp ap r',
    update_outcome k r l fin self f fp ap r' /\
    let L := update_loss self (entropy_sum (SConst 0) l) (value fin)
               (TLeaf ICM_feature f) (TLeaf ICM_feature_pred fp)
               (TLeaf ICM_action_pred ap) in
    filter is_optimization (snd (update gamma k r)) =
      [ZeroGrad; Backward L false;
       ClipGradNorm (max_grad_norm (params r)); OptimizerStep] /\
    exists r1 n2,
      rollout_outcome r l fin r1 /\
      icm (num_envs (params r1)) (teval (Storage.all_states (storage r1)))
          (Storage.all_actions (storage r1)) (optimizer_zero_grad (net r1))
        = ((f, fp, ap), n2) /\
      self = set_net n2 r1 /\
      net r' =
        optimizer_step
          (clip_grad_norm_ (max_grad_norm (params r)) (backward L n2)).
Proof.
  intros k r Hwf Hpos.
  destruct (update_ok k Hwf Hpos) as (l & fin & self & f & fp & ap & r' & Hout).
  exists l, fin, self, f, fp, ap, r'. split; [exact Hout|].
  cbv zeta. split; [|exact (update_outcome_net Hout)].
  destruct Hout as (r1 & n2 & Hroll & _ & Hself & Hrun & _).
  destruct Hroll as (_ & _ & _ & _ & (c1 & _) & _).
  rewrite Hrun. cbn [snd].
  rewrite filter_update_log by reflexivity.
  rewrite update_tail_optimization. subst self. cbn [params set_net].
  rewrite c1. reflexivity.
Qed.

Lemma concat_filter_nil : forall (p : event -> bool) (ws : list (list event)),
  Forall (fun w => filter p w = []) ws -> filter p (concat ws) = [].
Proof.
  induction 1 as [|w ws Hw _ IH]; cbn; [reflexivity|].
  rewrite filter_app, Hw, IH. reflexivity.
Qed.

Lemma concat_filter_repeat : forall (p : event -> bool) e (ws : list (list event)),
  Forall (fun w => filter p w = [e]) ws ->
  filter p (concat ws) = repeat e (length ws).
Proof.
  induction 1 as [|w ws Hw _ IH]; cbn; [reflexivity|].
  rewrite filter_app, Hw, IH. reflexivity.
Qed.

Lemma Forall2_Forall_r : forall (A B : Type) (P : A -> B -> Prop) (Q : B -> Prop) l m,
  Forall2 P l m -> (forall a b, P a b -> Q b) -> Forall Q m.
Proof.
  induction 1; intros HPQ; constructor; eauto.
Qed.

(** The updates of a loop run one by one, each from the runner its
    predecessor left. *)
Lemma for_each_update_chain : forall n k (r : Runner),
  runner_wf r -> (0 < rollout_size (params r) \/ n = 0)%nat ->
  exists r' ws,
    for_each (seq k n) (update gamma) r = (Ok tt, r', concat ws) /\
    Forall2 (fun i w => update_run (k + i) (params_at i r) w) (seq 0 n) ws /\
    updates_chain k r ws r' /\
    timestamp r' = timestamp r /\ logger r' = logger r.
Proof.
  induction n as [|n IH]; intros k r Hwf Hpos0.
  - exists r, []. cbn [seq for_each concat].
    split; [reflexivity|]. split; [constructor|]. repeat split; reflexivity.
  - assert (Hpos : (0 < rollout_size (params r))%nat)
      by (destruct Hpos0 as [Hpos|]; [exact Hpos | discriminate]).
    destruct (update_ok k Hwf Hpos) as (l & fin & self & f & fp & ap & r1 & Hout).
    pose proof Hout as (r0 & n2 & _ & _ & _ & Hrun & Hwf1 & Hp1 & Ht1 & Hl1 & Hs1).
    change (params r1 = params_at 1 r) in Hp1.
    assert (Hpos1 : (0 < rollout_size (params r1))%nat) by (rewrite Hp1; exact Hpos).
    destruct (IH (S k) r1 Hwf1 (or_introl Hpos1))
      as (r' & ws & Hloop & Hall & Hchain & Ht' & Hl').
    exists r', (snd (update gamma k r) :: ws).
    split.
    { cbn [seq for_each]. unfold bind. rewrite Hrun, Hloop. reflexivity. }
    split.
    { cbn [seq]. constructor.
      - rewrite Nat.add_0_r.
        exists r, l, fin, self, f, fp, ap, r1. rewrite Hrun. cbn [snd].
        split; [exact Hwf|]. split; [exact Hpos|].
        split; [symmetry; apply params_at_0|].
        split; [exact Hout|reflexivity].
      - apply Forall2_seq_shift.
        eapply Forall2_impl; [|exact Hall].
        intros i w Hw. cbn beta in Hw.
        replace (k + S i)%nat with (S k + i)%nat by lia.
        rewrite (params_at_step i r r1 Hp1) in Hw. exact Hw. }
    split.
    { cbn [Outcome.updates_chain]. exists r1. rewrite Hrun.
      split; [reflexivity | exact Hchain]. }
    split; congruence.
Qed.

(** A training run, runner by runner. *)
Lemma train_chain : forall r : Runner,
  runner_wf r ->
  (0 < rollout_size (params r) \/ num_updates (params r) = 0)%nat ->
  exists obs e0 s0 ws rn,
    env_reset (env r) = (obs, e0) /\
    Storage.copy_state 0 (Storage.obs2tensor obs) (storage r) = Some s0 /\
    updates_chain 0 (set_storage s0 (set_env e0 r)) ws rn /\
    train gamma r =
      (Ok tt, set_env (env_close (env rn)) rn,
       [EnvReset; CopyState 0] ++ concat ws ++
       [EnvClose; LoggerSave; ParamsSave (data_dir (logger r)) (timestamp r)]) /\
    Forall2 (fun i w => update_run i (params_at i r) w)
            (seq 0 (num_updates (params r))) ws.
Proof.
  intros r Hwf Hpos.
  destruct (env_reset (env r)) as [obs e0] eqn:Hreset.
  pose proof Hwf as [(Hs & Ht & Hf) HT].
  destruct (Storage.states (storage r)) as [|st0 sold] eqn:Es; [discriminate|].
  set (s0 := Storage.set_states (Some (Storage.obs2tensor obs) :: sold) (storage r)).
  set (r0 := set_storage s0 (set_env e0 r)).
  assert (Hwf0 : runner_wf r0).
  { unfold runner_wf, Storage.wf, r0, s0. cbn. cbn in Hs. repeat split; assumption. }
  assert (Hpos0 : (0 < rollout_size (params r0) \/ num_updates (params r) = 0)%nat)
    by exact Hpos.
  destruct (@for_each_update_chain (num_updates (params r)) 0 r0 Hwf0 Hpos0)
    as (rn & ws & Hloop & Hall & Hchain & Ht1 & Hl1).
  exists obs, e0, s0, ws, rn.
  split; [reflexivity|].
  split; [unfold Storage.copy_state; rewrite Es; reflexivity|].
  split; [exact Hchain|].
  split; [|exact Hall].
  unfold train. run_method. rewrite Hreset. run_method.
  unfold Storage.copy_state. rewrite Es. run_method.
  fold s0. fold r0. rewrite Hloop. run_method.
  rewrite Hl1, Ht1. cbn. reflexivity.
Qed.

(** (C8) For every number of updates the training loop of a freshly built
    runner resets the environment, seeds the buffer and runs exactly
    [num_updates] update iterations, each from the runner that the previous
    one left; then, after the last one, it closes the environment that the
    last update left, saves the logger and persists the configuration in the
    data directory of the logger, each exactly once.  The runner it leaves is
    the one of the last update, with the closed environment.  The rollout
    size is at least one, as every rollout requires (C9), unless there is no
    update to run. *)
Theorem C8_train_runs_updates_then_teardown :
  forall net0 env0 (params0 : Params C) is_cuda0 seed0 log_dir now avail new_logger,
  (0 < rollout_size params0 \/ num_updates params0 = 0)%nat ->
  let r := init net0 env0 params0 is_cuda0 seed0 log_dir now avail new_logger in
  let teardown :=
    [EnvClose; LoggerSave;
     ParamsSave (data_dir (new_logger (env_name params0) now log_dir)) now] in
  exists obs e0 s0 ws rn,
    env_reset env0 = (obs, e0) /\
    Storage.copy_state 0 (Storage.obs2tensor obs) (storage r) = Some s0 /\
    updates_chain 0 (set_storage s0 (set_env e0 r)) ws rn /\
    length ws = num_updates params0 /\
    train gamma r =
      (Ok tt, set_env (env_close (env rn)) rn,
       [EnvReset; CopyState 0] ++ concat ws ++ teardown) /\
    filter is_zero_grad (snd (train gamma r)) = repeat ZeroGrad (num_updates params0) /\
    filter is_teardown (snd (train gamma r)) = teardown.
Proof.
  intros net0 env0 params0 is_cuda0 seed0 log_dir now avail new_logger Hpos r teardown.
  destruct (@train_chain r (init_wf _ _ _ _ _ _ _ _ _) Hpos)
    as (obs & e0 & s0 & ws & rn & Hreset & Hcopy & Hchain & Hrun & Hall).
  assert (Hlen : length ws = num_updates params0).
  { apply Forall2_length in Hall. rewrite length_seq in Hall. symmetry; exact Hall. }
  exists obs, e0, s0, ws, rn.
  split; [exact Hreset|]. split; [exact Hcopy|]. split; [exact Hchain|].
  split; [exact Hlen|]. split; [exact Hrun|].
  rewrite Hrun. cbn [snd].
  split.
  - rewrite !filter_app. cbn.
    rewrite (@concat_filter_repeat is_zero_grad ZeroGrad ws), Hlen, app_nil_r;
      [reflexivity|].
    eapply Forall2_Forall_r; [exact Hall|].
    intros k w Hw. cbn beta in Hw.
    destruct (update_run_log Hw) as (l & fin & self & F & FP & AP & Hp & ->).
    rewrite filter_update_log by reflexivity. apply update_tail_zero_grad.
  - rewrite !filter_app. cbn.
    rewrite (@concat_filter_nil is_teardown ws); [reflexivity|].
    eapply Forall2_Forall_r; [exact Hall|].
    intros k w Hw. cbn beta in Hw.
    destruct (update_run_log Hw) as (l & fin & self & F & FP & AP & Hp & ->).
    rewrite filter_update_log by reflexivity. apply update_tail_teardown.
Qed.

(** *** The assembled loss *)

Lemma backward_losses_update_log : forall l T fin tail,
  backward_losses
    ((blocks 0 l ++ [GetState T; GetAction false fin; CopyFeature T]) ++ tail)
  = backward_losses tail.
Proof.
  intros. unfold backward_losses.
  rewrite !flat_map_app, flat_map_blocks_nil by reflexivity. reflexivity.
Qed.

Lemma backward_losses_update_tail : forall k (self : Runner) e fv F FP AP,
  backward_losses (update_tail k self e fv F FP AP) = [update_loss self e fv F FP AP].
Proof.
  intros. unfold update_tail. destruct (k mod 100 =? 0)%nat; reflexivity.
Qed.

Lemma entropy_sum_value : forall l e0,
  seval (entropy_sum e0 l) =
    (seval e0 + Rsum (map (fun x : step_rec => seval (entropy (fst x))) l))%R.
Proof.
  induction l as [|x l IH]; intros e0; cbn [entropy_sum fold_left map].
  - cbn. lra.
  - change (fold_left _ l ?e) with (entropy_sum e l). rewrite IH.
    unfold Rsum. cbn [seval fold_right]. lra.
Qed.

Lemma sq_diff_sym : forall a b,
  map Rsqr2 (map2 Rminus a b) = map Rsqr2 (map2 Rminus b a).
Proof.
  induction a as [|x a IH]; intros [|y b]; cbn; try reflexivity.
  rewrite IH. f_equal. unfold Rsqr2. ring.
Qed.

(** (C1, as the code has it) In every update exactly one loss is propagated
    backward, and its value is
    [policy_loss + value_coeff * value_loss - entropy_coeff * entropy_sum
     + forward_loss + inverse_loss - curiosity_coeff * curiosity_loss],
    where [forward_loss] is the mean squared error between the two feature
    outputs of the curiosity module, and [curiosity_loss] is computed apart,
    from the features recorded in slots [1 .. T] of the buffer and the
    prediction; it has the value of [forward_loss] when the recorded
    features equal the features that the curiosity module returned. *)
Theorem C1_total_objective : forall k (r : Runner),
  runner_wf r -> (0 < rollout_size (params r))%nat ->
  exists l fin self f fp ap r',
    update_outcome k r l fin self f fp ap r' /\
    let F := TLeaf ICM_feature f in
    let FP := TLeaf ICM_feature_pred fp in
    let AP := TLeaf ICM_action_pred ap in
    let entropy_total := entropy_sum (SConst 0) l in
    let terms := Storage.a2c_loss gamma (storage self) (value fin) in
    let policy_loss := fst (fst terms) in
    let value_loss := snd (fst terms) in
    let forward_loss := mse_loss FP F in
    let inverse_loss :=
      SCrossEntropy AP (num_actions (net self)) (Storage.all_actions (storage self)) in
    let curiosity := curiosity_loss self FP in
    let recorded := teval (Storage.features_from1 (storage self)) in
    exists L,
      backward_losses (snd (update gamma k r)) = [L] /\
      seval L =
        (seval policy_loss + value_coeff (params r) * seval value_loss
         - entropy_coeff (params r) * seval entropy_total
         + seval forward_loss + seval inverse_loss
         - coeff_value (curiosity_coeff (params r)) * seval curiosity)%R /\
      seval entropy_total = Rsum (map (fun x : step_rec => seval (entropy (fst x))) l) /\
      seval forward_loss = Rmean (map Rsqr2 (map2 Rminus fp f)) /\
      seval curiosity = Rmean (map Rsqr2 (map2 Rminus recorded fp)) /\
      (recorded = f -> seval curiosity = seval forward_loss).
Proof.
  intros k r Hwf Hpos.
  destruct (update_ok k Hwf Hpos) as (l & fin & self & f & fp & ap & r' & Hout).
  exists l, fin, self, f, fp, ap, r'. split; [exact Hout|].
  destruct Hout as (r1 & n2 & Hroll & _ & Hself & Hrun & _).
  destruct Hroll as (_ & _ & _ & _ & (c1 & _) & _).
  assert (Hp : params self = params r) by (subst self; exact c1).
  cbv zeta.
  exists (update_loss self (entropy_sum (SConst 0) l) (value fin)
            (TLeaf ICM_feature f) (TLeaf ICM_feature_pred fp)
            (TLeaf ICM_action_pred ap)).
  split.
  { rewrite Hrun. cbn [snd].
    rewrite backward_losses_update_log. apply backward_losses_update_tail. }
  split.
  { unfold update_loss, assemble_loss, a2c_loss, icm_loss.
    cbn [seval]. rewrite Hp. ring. }
  split; [rewrite entropy_sum_value; cbn; lra|].
  split; [reflexivity|].
  split; [reflexivity|].
  intros Hrec. unfold curiosity_loss, mse_loss. cbn [seval teval].
  rewrite Hrec. f_equal. apply sq_diff_sym.
Qed.

(** In every update the return computation of the buffer runs once, on the
    transitions of the rollout that was just collected, and is seeded with
    the value that the bootstrap query without gradients returned. *)
Theorem returns_seeded_with_bootstrap_value : forall k (r : Runner),
  runner_wf r -> (0 < rollout_size (params r))%nat ->
  exists l fin self f fp ap r',
    update_outcome k r l fin self f fp ap r' /\
    (exists d, fin = wrap_action false d) /\
    let terms := Storage.a2c_terms gamma (map transition_of l) (value fin) in
    a2c_outputs (snd (update gamma k r)) = [(fst (fst terms), snd (fst terms))].
Proof.
  intros k r Hwf Hpos.
  destruct (update_ok k Hwf Hpos) as (l & fin & self & f & fp & ap & r' & Hout).
  exists l, fin, self, f, fp, ap, r'. split; [exact Hout|].
  destruct Hout as (r1 & n2 & Hroll & _ & Hself & Hrun & _).
  destruct Hroll as (_ & _ & _ & Hfin & _ & Hst & _).
  split; [exact Hfin|]. cbv zeta.
  rewrite Hrun. cbn [snd]. unfold a2c_outputs.
  rewrite !flat_map_app, flat_map_blocks_nil by reflexivity.
  unfold Outcome.update_tail. cbn [flat_map app].
  subst self. unfold Storage.a2c_loss. cbn [storage set_net].
  rewrite Hst, map_map. cbn [Storage.step_slot].
  destruct (k mod 100 =? 0)%nat; reflexivity.
Qed.

(** Gradient reaches a concatenation when it reaches one of its parts. *)
Lemma tgrad_cat : forall p ts,
  tgrad p (Storage.cat ts) = existsb (tgrad p) ts.
Proof.
  induction ts as [|t ts IH]; cbn; [reflexivity|].
  unfold Storage.cat in IH. rewrite IH. reflexivity.
Qed.

Lemma existsb_recorded : forall p (l : list step_rec),
  Forall with_grad l ->
  existsb (tgrad p) (map Storage.slot (map (fun x => Some (feature_of x)) l)) =
    (1 <=? length l)%nat && p A2C_features.
Proof.
  induction 1 as [|x l [d Hx] _ IH]; cbn [map existsb length]; [reflexivity|].
  rewrite IH. unfold feature_of. rewrite Hx. cbn.
  destruct (p A2C_features); [reflexivity|].
  rewrite andb_false_r. reflexivity.
Qed.

(** (C2, as the code has it) The forward loss inside the curiosity sum is
    the mean squared error between the prediction and the feature output of
    the curiosity module itself, and neither side is detached: its gradient
    reaches both.  The term that compares the prediction with the features
    recorded in the buffer is the subtracted curiosity loss, and there the
    prediction is the detached side: its gradient reaches the features
    that the agent computed during the rollout and nothing else.  (The
    feature tensor of the buffer is written in place, so its slice
    [features[1:]] is joined to every feature that was inserted with
    gradients enabled, the one of slot 0 included.) *)
Theorem C2_forward_loss_gradients : forall k (r : Runner),
  runner_wf r -> (0 < rollout_size (params r))%nat ->
  exists l fin self f fp ap r',
    update_outcome k r l fin self f fp ap r' /\
    let F := TLeaf ICM_feature f in
    let FP := TLeaf ICM_feature_pred fp in
    let AP := TLeaf ICM_action_pred ap in
    let forward_loss := mse_loss FP F in
    let curiosity := curiosity_loss self FP in
    let recorded := Storage.features_from1 (storage self) in
    (exists a2c_part inverse_loss c,
       backward_losses (snd (update gamma k r)) =
         [SSub (SAdd a2c_part (SAdd forward_loss inverse_loss))
               (SMul (SConst c) curiosity)]) /\
    seval forward_loss = Rmean (map Rsqr2 (map2 Rminus fp f)) /\
    (forall p, sgrad p forward_loss = p ICM_feature_pred || p ICM_feature) /\
    seval curiosity = Rmean (map Rsqr2 (map2 Rminus (teval recorded) fp)) /\
    (forall p, sgrad p curiosity = p A2C_features).
Proof.
  intros k r Hwf Hpos.
  destruct (update_ok k Hwf Hpos) as (l & fin & self & f & fp & ap & r' & Hout).
  exists l, fin, self, f, fp, ap, r'. split; [exact Hout|].
  destruct Hout as (r1 & n2 & Hroll & _ & Hself & Hrun & _).
  destruct Hroll as (_ & Hlen & Hgrad & (d & Hfin) & _ & _ & Hft & _).
  cbv zeta.
  split.
  { do 3 eexists. rewrite Hrun. cbn [snd].
    rewrite backward_losses_update_log, backward_losses_update_tail.
    reflexivity. }
  split; [reflexivity|].
  split; [reflexivity|].
  split; [reflexivity|].
  intros p. unfold curiosity_loss. cbn [sgrad tgrad]. rewrite orb_false_r.
  unfold Storage.features_from1, Storage.feature_table. cbn [tgrad].
  subst self. cbn [storage set_net].
  rewrite Hft, tgrad_cat, map_app, existsb_app.
  rewrite existsb_recorded by exact Hgrad.
  subst fin. cbn [map existsb Storage.slot a2c_features wrap_action tgrad].
  rewrite !orb_false_r, Hlen.
  destruct (rollout_size (params r)); [lia | reflexivity].
Qed.

(** *** The seed *)

Lemma blind_ret : forall (A : Type) (a : A), seed_blind (ret a : M A).
Proof. intros A a z r. reflexivity. Qed.

Lemma blind_raise : forall (A : Type) e, seed_blind (@raise E N C A e).
Proof. intros A e z r. reflexivity. Qed.

Lemma blind_emit : forall e, seed_blind (emit e : M unit).
Proof. intros e z r. reflexivity. Qed.

Lemma blind_bind : forall (A B : Type) (m : M A) (f : A -> M B),
  seed_blind m -> (forall a, seed_blind (f a)) -> seed_blind (bind m f).
Proof.
  intros A B m f Hm Hf z r. unfold bind. rewrite Hm.
  destruct (m r) as [[[a|e] r1] w1]; cbn; [|reflexivity].
  rewrite Hf. destruct (f a r1) as [[x r2] w2]. reflexivity.
Qed.

Lemma blind_gets : forall (A : Type) (f : Runner -> A),
  (forall z r, f (set_seed z r) = f r) -> seed_blind (gets f).
Proof. intros A f Hf z r. unfold gets. rewrite Hf. reflexivity. Qed.

Lemma blind_self : forall (B : Type) (f : Runner -> M B),
  (forall r0, seed_blind (f r0)) ->
  (forall z r, f (set_seed z r) = f r) ->
  seed_blind (bind (gets (fun r => r)) f).
Proof.
  intros B f Hf Hsame z r. unfold bind, gets. rewrite Hsame, Hf.
  destruct (f r r) as [[x r2] w2]. reflexivity.
Qed.

Lemma blind_of_option : forall (A : Type) (o : option A) e,
  seed_blind (of_option o e : M A).
Proof. intros A [a|] e z r; reflexivity. Qed.

Lemma blind_call_env : forall (A : Type) (f : E -> A * E), seed_blind (call_env f : M A).
Proof. intros A f z r. unfold call_env. cbn. destruct (f (env r)). reflexivity. Qed.

Lemma blind_call_net : forall (A : Type) (f : N -> A * N), seed_blind (call_net f : M A).
Proof. intros A f z r. unfold call_net. cbn. destruct (f (net r)). reflexivity. Qed.

Lemma blind_update_net : forall f : N -> N, seed_blind (update_net f : M unit).
Proof. intros f z r. reflexivity. Qed.

Lemma blind_update_env : forall f : E -> E, seed_blind (update_env f : M unit).
Proof. intros f z r. reflexivity. Qed.

Lemma blind_update_coeff : forall f : C -> C, seed_blind (update_coeff f : M unit).
Proof. intros f z r. reflexivity. Qed.

Lemma blind_update_storage : forall f, seed_blind (update_storage f : M unit).
Proof.
  intros f z r. unfold update_storage. cbn. destruct (f (storage r)); reflexivity.
Qed.

Create HintDb blind.

#[local] Hint Resolve blind_ret blind_raise blind_emit blind_of_option blind_call_env
  blind_call_net blind_update_net blind_update_env blind_update_coeff
  blind_update_storage : blind.

Ltac blind :=
  repeat first
    [ apply blind_self; [intros ?|reflexivity]
    | apply blind_bind; [|intros ?]
    | apply blind_gets; reflexivity
    | match goal with
      | |- seed_blind (let '(_, _) := ?x in _) => destruct x
      | |- seed_blind (if ?b then _ else _) => destruct b
      end
    | solve [auto with blind] ].

Lemma blind_storage_get_state : forall t, seed_blind (storage_get_state t : M tensor).
Proof. intros t. unfold storage_get_state. blind. Qed.

Lemma blind_net_get_action : forall g x, seed_blind (net_get_action g x : M action_out).
Proof. intros g x. unfold net_get_action. blind. Qed.

Lemma blind_env_do_step : forall a, seed_blind (env_do_step a : M step_data).
Proof. intros a. unfold env_do_step. blind. Qed.

#[local] Hint Resolve blind_storage_get_state blind_net_get_action blind_env_do_step : blind.

Lemma blind_rollout_loop : forall range loc, seed_blind (rollout_loop range loc : M rollout_locals).
Proof.
  induction range as [|t range IH]; intros loc; cbn [rollout_loop]; blind.
Qed.

Lemma blind_episode_rollout : seed_blind (episode_rollout : M (tensor * scalar)).
Proof.
  unfold episode_rollout, local_step. blind. apply blind_rollout_loop.
Qed.

Lemma blind_net_icm : seed_blind (net_icm : M (tensor * tensor * tensor)).
Proof. unfold net_icm. blind. Qed.

Lemma blind_update : forall k, seed_blind (update gamma k : M unit).
Proof.
  intros k. unfold update.
  apply blind_bind; [apply blind_episode_rollout|]. intros [fv ent].
  apply blind_bind; [auto with blind|]. intros _.
  apply blind_bind; [auto with blind|]. intros _.
  apply blind_bind; [apply blind_net_icm|]. intros [[F FP] AP].
  apply blind_self; [intros r0|reflexivity].
  destruct (Storage.a2c_loss gamma (storage r0) fv) as [[pl vl] rw].
  blind.
Qed.

Lemma blind_for_each : forall range (body : nat -> M unit),
  (forall k, seed_blind (body k)) -> seed_blind (for_each range body).
Proof.
  induction range as [|k range IH]; intros body Hb; cbn [for_each]; blind; auto.
Qed.

Lemma blind_train : seed_blind (train gamma : M unit).
Proof.
  unfold train. blind. apply blind_for_each. apply blind_update.
Qed.

(** (C10) The seed given to the constructor is stored and never read: two
    runners built from the same arguments but different seeds differ in the
    stored seed only, and [train], as well as every single update from any
    state, makes the same calls, returns the same result and leaves the same
    objects, up to the stored seed. *)
Theorem C10_seed_never_read :
  forall net0 env0 (params0 : Params C) is_cuda0 seed1 seed2 log_dir now avail
         new_logger,
  let r1 := init net0 env0 params0 is_cuda0 seed1 log_dir now avail new_logger in
  let r2 := init net0 env0 params0 is_cuda0 seed2 log_dir now avail new_logger in
  r2 = set_seed seed2 r1 /\
  train gamma r2 = map_state (set_seed seed2) (train gamma r1) /\
  forall k r, update gamma k (set_seed seed2 r) =
              map_state (set_seed seed2) (update gamma k r).
Proof.
  intros. split; [reflexivity|]. split.
  - change r2 with (set_seed seed2 r1). apply blind_train.
  - intros k r. apply blind_update.
Qed.

End WithCollaborators.

End RunnerFacts.

(** ** Further properties of the runner *)

Module MoreFacts.
Import Torch Collab Runner Log Calls Outcome Effects StorageFacts RunnerFacts.

Section WithCollaborators.

Context {E N C : Type} `{Environment E} `{Network N} `{CoefficientSchedule C}.
Variable gamma : R.

Local Abbreviation Runner := (@Runner E N C).
Local Abbreviation M := (@Runner.M E N C).

Ltac run_method :=
  repeat (progress (unfold bind, storage_get_state, gets, of_option, emit, ret,
                      raise, net_get_action, env_do_step, call_net, call_env,
                      update_storage, update_net, update_env, update_coeff,
                      local_step, net_icm;
                    cbn -[rollout_loop for_each Nat.modulo Nat.eqb])).

(** *** Methods that never make a call of some kind *)

Lemma config_kept_refl : forall r : Runner, config_kept r r.
Proof. intros r. unfold config_kept. repeat split; reflexivity. Qed.

Lemma config_kept_trans : forall r1 r2 r3 : Runner,
  config_kept r1 r2 -> config_kept r2 r3 -> config_kept r1 r3.
Proof.
  unfold config_kept. intros r1 r2 r3 Ha Hb.
  decompose [and] Ha. decompose [and] Hb. repeat split; congruence.
Qed.

Section Silent.

(** [q] selects calls that neither the rollout nor the learning part of an
    update makes. *)
Variable q : event -> bool.
Hypothesis q_update : forall e, is_learning e || is_collection e = true -> q e = false.

Ltac kept := unfold config_kept; cbn; repeat split; reflexivity.

Lemma silent_ret : forall (A : Type) (a : A), silent q (ret a : M A).
Proof. intros A a r. cbn. split; [reflexivity | kept]. Qed.

Lemma silent_raise : forall (A : Type) e, silent q (raise e : M A).
Proof. intros A e r. cbn. split; [reflexivity | kept]. Qed.

Lemma silent_gets : forall (A : Type) (f : Runner -> A), silent q (gets f).
Proof. intros A f r. cbn. split; [reflexivity | kept]. Qed.

Lemma silent_emit : forall e, q e = false -> silent q (emit e : M unit).
Proof. intros e He r. cbn. rewrite He. split; [reflexivity | kept]. Qed.

Lemma silent_of_option : forall (A : Type) (o : option A) e,
  silent q (of_option o e : M A).
Proof. intros A [a|] e; [apply silent_ret | apply silent_raise]. Qed.

Lemma silent_bind : forall (A B : Type) (m : M A) (f : A -> M B),
  silent q m -> (forall a, silent q (f a)) -> silent q (bind m f).
Proof.
  intros A B m f Hm Hf r. unfold bind.
  destruct (Hm r) as [Hq Hk].
  destruct (m r) as [[[a|e] r1] w1]; cbn in *; [|split; assumption].
  destruct (Hf a r1) as [Hq2 Hk2].
  destruct (f a r1) as [[x r2] w2]. cbn in *.
  rewrite filter_app, Hq, Hq2.
  split; [reflexivity | eapply config_kept_trans; eassumption].
Qed.

Lemma silent_call_env : forall (A : Type) (f : E -> A * E), silent q (call_env f : M A).
Proof.
  intros A f r. unfold call_env. destruct (f (env r)). cbn.
  split; [reflexivity | kept].
Qed.

Lemma silent_call_net : forall (A : Type) (f : N -> A * N), silent q (call_net f : M A).
Proof.
  intros A f r. unfold call_net. destruct (f (net r)). cbn.
  split; [reflexivity | kept].
Qed.

Lemma silent_update_net : forall f : N -> N, silent q (update_net f : M unit).
Proof. intros f r. cbn. split; [reflexivity | kept]. Qed.

Lemma silent_update_env : forall f : E -> E, silent q (update_env f : M unit).
Proof. intros f r. cbn. split; [reflexivity | kept]. Qed.

Lemma silent_update_coeff : forall f : C -> C, silent q (update_coeff f : M unit).
Proof. intros f r. cbn. split; [reflexivity | kept]. Qed.

Lemma silent_update_storage : forall f, silent q (update_storage f : M unit).
Proof.
  intros f r. unfold update_storage. destruct (f (storage r)); cbn;
    (split; [reflexivity | kept]).
Qed.

Ltac silence :=
  repeat first
    [ apply silent_bind; [|intros ?]
    | apply silent_gets
    | apply silent_ret
    | apply silent_of_option
    | apply silent_call_env
    | apply silent_call_net
    | apply silent_update_net
    | apply silent_update_env
    | apply silent_update_coeff
    | apply silent_update_storage
    | apply silent_emit; first [reflexivity | apply q_update; reflexivity]
    | match goal with
      | |- silent _ (let '(_, _) := ?x in _) => destruct x
      | |- silent _ (if ?b then _ else _) => destruct b
      end
    | assumption ].

Lemma silent_rollout_loop : forall range loc,
  silent q (rollout_loop range loc : M rollout_locals).
Proof.
  induction range as [|t range IH]; intros loc; cbn [rollout_loop];
    unfold storage_get_state, net_get_action, env_do_step; silence.
  apply IH.
Qed.

Lemma silent_episode_rollout : silent q (episode_rollout : M (tensor * scalar)).
Proof.
  unfold episode_rollout, local_step, storage_get_state, net_get_action.
  silence. apply silent_rollout_loop.
Qed.

Lemma silent_update : forall k, silent q (update gamma k : M unit).
Proof.
  intros k. unfold update.
  apply silent_bind; [apply silent_episode_rollout|]. intros [fv ent].
  unfold net_icm. silence.
Qed.

Lemma silent_for_each : forall range (body : nat -> M unit),
  (forall k, silent q (body k)) -> silent q (for_each range body).
Proof.
  induction range as [|k range IH]; intros body Hb; cbn [for_each].
  - apply silent_ret.
  - apply silent_bind; [apply Hb | intros _; apply IH; exact Hb].
Qed.

End Silent.

(** The teardown of [train] follows its loop and is never interleaved with
    it: the calls of a run split into those made before any teardown call,
    and the teardown calls made, which are an initial part of [env.close()],
    [logger.save()], [params.save(logger.data_dir, timestamp)], in this
    order; and [train] returns exactly when all three were made. *)
Theorem train_tears_down_iff_it_returns : forall r : Runner,
  let teardown :=
    [EnvClose; LoggerSave; ParamsSave (data_dir (logger r)) (timestamp r)] in
  exists pre made rest,
    snd (train gamma r) = pre ++ made /\
    filter is_teardown pre = [] /\
    made ++ rest = teardown /\
    ((exists r', fst (train gamma r) = (Ok tt, r')) <-> made = teardown).
Proof.
  intros r teardown. subst teardown. unfold train. run_method.
  destruct (env_reset (env r)) as [obs e']. run_method.
  destruct (Storage.copy_state 0 (Storage.obs2tensor obs) (storage r)) as [s0|];
    run_method.
  2:{ exists [EnvReset], [],
        [EnvClose; LoggerSave; ParamsSave (data_dir (logger r)) (timestamp r)].
      split; [reflexivity|]. split; [reflexivity|]. split; [reflexivity|].
      split; [intros [r' Hr]; discriminate Hr | discriminate]. }
  match goal with
  | |- context [for_each ?range ?body ?r0] =>
      destruct (@silent_for_each is_teardown range body
                  (silent_update is_teardown
                     ltac:(intros [] He; solve [reflexivity | discriminate He]))
                  r0) as [Hq Hk];
      destruct (for_each range body r0) as [[[[]|e] r1] w1]
  end; cbn in Hq, Hk; run_method.
  - destruct Hk as (Ht & _ & _ & Hl & _). cbn in Ht, Hl. rewrite Ht, Hl.
    exists (EnvReset :: CopyState 0 :: w1),
      [EnvClose; LoggerSave; ParamsSave (data_dir (logger r)) (timestamp r)], [].
    split; [reflexivity|]. split; [cbn; exact Hq|]. split; [reflexivity|].
    split; [reflexivity | intros _; eexists; reflexivity].
  - exists (EnvReset :: CopyState 0 :: w1), [],
      [EnvClose; LoggerSave; ParamsSave (data_dir (logger r)) (timestamp r)].
    split; [rewrite app_nil_r; reflexivity|]. split; [cbn; exact Hq|].
    split; [reflexivity|].
    split; [intros [r' Hr]; discriminate Hr | discriminate].
Qed.

(** Whatever happens in [train], it leaves the timestamp, the seed, the
    device flag, the logger and every configuration option other than the
    coefficient schedule as [__init__] set them. *)
Theorem train_keeps_configuration : forall r : Runner,
  config_kept r (snd (fst (train gamma r))).
Proof.
  intros r.
  assert (Hq : forall e, is_learning e || is_collection e = true ->
                         (fun _ : event => false) e = false) by reflexivity.
  assert (Hs : silent (fun _ => false) (train gamma : M unit)).
  { unfold train.
    repeat first
      [ apply silent_bind; [|intros ?]
      | apply silent_gets
      | apply silent_call_env
      | apply silent_update_env
      | apply silent_update_storage
      | apply silent_emit; reflexivity
      | apply silent_for_each; intros ?; apply silent_update; exact Hq ]. }
  exact (proj2 (Hs r)).
Qed.

(** With a rollout size of zero and at least one update to run, [train]
    resets the environment, seeds the buffer and then fails in the first
    rollout: the environment is left open (it is the one [reset] returned, not
    a closed one) and nothing is saved. *)
Theorem train_zero_rollout_fails_before_teardown : forall r : Runner,
  runner_wf r -> rollout_size (params r) = 0%nat ->
  num_updates (params r) <> 0%nat ->
  exists obs e' s0,
    env_reset (env r) = (obs, e') /\
    Storage.copy_state 0 (Storage.obs2tensor obs) (storage r) = Some s0 /\
    train gamma r =
      (Raise (UnboundLocalError "step"), set_storage s0 (set_env e' r),
       [EnvReset; CopyState 0]).
Proof.
  intros r [(Hs & _) _] HT Hn.
  destruct (env_reset (env r)) as [obs e'] eqn:Hreset.
  destruct (Storage.states (storage r)) as [|s0 sold] eqn:Es; [discriminate|].
  exists obs, e'. eexists.
  split; [reflexivity|].
  split; [unfold Storage.copy_state; rewrite Es; reflexivity|].
  unfold train. run_method. rewrite Hreset. run_method.
  unfold Storage.copy_state. rewrite Es. run_method.
  destruct (num_updates (params r)) as [|n]; [congruence|].
  cbn [seq for_each]. unfold update, episode_rollout. run_method.
  rewrite HT. cbn. reflexivity.
Qed.

(** A training run that has rollouts to make leaves the buffer in the shape
    it was allocated with, and the coefficient schedule advanced exactly once
    per update. *)
Theorem train_steps_coefficient_once_per_update : forall r : Runner,
  runner_wf r ->
  (0 < rollout_size (params r) \/ num_updates (params r) = 0)%nat ->
  exists r',
    fst (train gamma r) = (Ok tt, r') /\
    runner_wf r' /\
    curiosity_coeff (params r') =
      Nat.iter (num_updates (params r)) coeff_step (curiosity_coeff (params r)).
Proof.
  intros r Hwf Hpos.
  destruct (env_reset (env r)) as [obs e'] eqn:Hreset.
  pose proof Hwf as [(Hs & Ht & Hf) HT].
  destruct (Storage.states (storage r)) as [|s0 sold] eqn:Es; [discriminate|].
  set (r0 := set_storage (Storage.set_states (Some (Storage.obs2tensor obs) :: sold)
                            (storage r)) (set_env e' r)).
  assert (Hwf0 : runner_wf r0).
  { unfold runner_wf, Storage.wf, r0. cbn. cbn in Hs. repeat split; assumption. }
  assert (Hpos0 : (0 < rollout_size (params r0) \/ num_updates (params r) = 0)%nat)
    by exact Hpos.
  destruct (@for_each_update_ok _ _ _ _ _ _ gamma (num_updates (params r)) 0 r0 Hwf0 Hpos0)
    as (r1 & ws & Hloop & _ & Hwf1 & Hp1 & _).
  exists (set_env (env_close (env r1)) r1).
  split.
  { unfold train. run_method. rewrite Hreset. run_method.
    unfold Storage.copy_state. rewrite Es. run_method.
    fold r0. rewrite Hloop. run_method. reflexivity. }
  split; [exact Hwf1|].
  cbn. rewrite Hp1. reflexivity.
Qed.

Lemma agree_bind : forall (q : event -> bool) (A B : Type) (m : M A) (f g : A -> M B),
  (forall a, agree_but q (f a) (g a)) -> agree_but q (bind m f) (bind m g).
Proof.
  intros q A B m f g Hfg r. unfold bind.
  destruct (m r) as [[[a|e] r1] w1]; [|split; reflexivity].
  destruct (Hfg a r1) as [Hr Hw].
  destruct (f a r1) as [[x r2] w2], (g a r1) as [[x' r2'] w2']. cbn in *.
  split; [exact Hr|]. rewrite !filter_app, Hw. reflexivity.
Qed.

(** The update number is used for reporting only: two updates run from the
    same runner under different numbers return the same result, leave the
    same runner and make the same calls, the two reporting calls apart. *)
Theorem update_number_only_reported : forall k k' (r : Runner),
  fst (update gamma k r) = fst (update gamma k' r) /\
  filter (fun e => negb (is_print e)) (snd (update gamma k r)) =
    filter (fun e => negb (is_print e)) (snd (update gamma k' r)).
Proof.
  intros k k'.
  change (agree_but is_print (update gamma k : M unit) (update gamma k')).
  unfold update.
  repeat first
    [ apply agree_bind; intros ?
    | match goal with
      | |- agree_but _ (let '(_, _) := ?x in _) _ => destruct x
      end ].
  intros r. destruct (k mod 100 =? 0)%nat, (k' mod 100 =? 0)%nat;
    split; reflexivity.
Qed.

(** *** The exceptions of a rollout *)

(** The loop of a rollout can only fail with an [IndexError] of the buffer;
    once its body has run, [step] is bound. *)
Lemma rollout_loop_step : forall range loc (r : Runner),
  match fst (fst (rollout_loop range loc r)) with
  | Ok loc' =>
      (exists t, step loc' = Some t) \/ (range = [] /\ step loc' = step loc)
  | Raise e => e = IndexError
  end.
Proof.
  induction range as [|t range IH]; intros loc r.
  - right. split; reflexivity.
  - rewrite rollout_loop_cons.
    destruct (Storage.get_state t (storage r)) as [state|]; [|reflexivity].
    destruct (a2c_get_action true (teval state) (net r)) as [d n'].
    cbv zeta.
    destruct (env_step _ (env r)) as [sd e'].
    destruct (Storage.insert _ _ _ _ _ _ _ _ _) as [s'|]; [|reflexivity].
    match goal with
    | |- context [rollout_loop range ?loc1 ?r1] =>
        specialize (IH loc1 r1);
        destruct (rollout_loop range loc1 r1) as [[[loc'|e] r2] w]
    end; cbn [fst] in *; [|exact IH].
    left. destruct IH as [Ht|[_ Hs]]; [exact Ht | eexists; exact Hs].
Qed.

(** A rollout fails on the unbound loop variable [step] exactly when the
    rollout size is zero: once the body of the loop has run, [step] is bound
    for the bootstrap query and the write that follow the loop. *)
Theorem rollout_unbound_step_iff_no_steps : forall r : Runner,
  fst (fst (episode_rollout r)) = Raise (UnboundLocalError "step") <->
  rollout_size (params r) = 0%nat.
Proof.
  intros r.
  destruct (rollout_size (params r)) as [|m] eqn:HT.
  - split; [reflexivity|]. intros _.
    unfold episode_rollout. run_method. rewrite HT. reflexivity.
  - split; [|discriminate]. intros Hraise. exfalso. revert Hraise.
    unfold episode_rollout. run_method. rewrite HT.
    match goal with
    | |- context [rollout_loop ?range ?loc r] =>
        pose proof (rollout_loop_step range loc r) as Hstep;
        destruct (rollout_loop range loc r) as [[[loc'|e] r1] w1]
    end; cbn [fst] in Hstep; run_method.
    + destruct Hstep as [[t Ht]|[Hnil _]]; [|cbn in Hnil; discriminate].
      rewrite Ht. run_method.
      destruct (Storage.get_state (t + 1) (storage r1)) as [state|];
        run_method; [|discriminate].
      destruct (a2c_get_action false (teval state) (net r1)) as [d n'].
      run_method.
      destruct (Storage.copy_feature _ _ _) as [s'|]; run_method; discriminate.
    + rewrite Hstep. discriminate.
Qed.

(** *** The actions of a rollout *)

Lemma env_actions_blocks : forall l t,
  env_actions (blocks t l) = map (fun x : step_rec => a_t (fst x)) l.
Proof.
  induction l as [|x l IH]; intros t; cbn; [reflexivity|].
  f_equal. apply IH.
Qed.

Lemma query_actions_blocks : forall l t,
  Forall with_grad l ->
  query_actions true (blocks t l) = map (fun x : step_rec => a_t (fst x)) l /\
  query_actions false (blocks t l) = [].
Proof.
  induction l as [|x l IH]; intros t Hg; cbn; [split; reflexivity|].
  inversion Hg as [|? ? _ Hgl]; subst.
  destruct (IH (S t) Hgl) as [Ha Hb].
  split; [f_equal; exact Ha | exact Hb].
Qed.

(** In a rollout the environment executes exactly the action batches that
    the agent proposed in its queries with gradients enabled, in the order
    they were proposed, and the buffer records them step by step; the action
    proposed in the bootstrap query is never executed. *)
Theorem rollout_executes_proposed_actions : forall r : Runner,
  runner_wf r -> (0 < rollout_size (params r))%nat ->
  exists x r' w,
    episode_rollout r = (Ok x, r', w) /\
    env_actions w = query_actions true w /\
    length (env_actions w) = rollout_size (params r) /\
    map (fun o => Storage.tr_action (Storage.step_slot o))
        (Storage.steps (storage r')) = env_actions w /\
    length (query_actions false w) = 1%nat.
Proof.
  intros r Hwf Hpos.
  destruct (episode_rollout_ok Hwf Hpos)
    as (l & fin & r' & Hrun & Hlen & Hgrad & (d & Hfin) & _ & Hst & _).
  destruct (query_actions_blocks 0 Hgrad) as [Hqt Hqf].
  do 3 eexists. split; [exact Hrun|].
  unfold env_actions, query_actions in *.
  rewrite !flat_map_app. fold (env_actions (blocks 0 l)).
  rewrite env_actions_blocks, Hqt, Hqf, Hst. subst fin. cbn.
  rewrite app_nil_r, length_map, map_map. cbn.
  repeat split; exact Hlen.
Qed.

(** *** Where the gradient of a rollout can flow *)

Lemma sgrad_entropy_sum : forall p (l : list step_rec) e0,
  Forall with_grad l ->
  sgrad p (entropy_sum e0 l) =
    sgrad p e0 || ((1 <=? length l)%nat && p A2C_entropy).
Proof.
  intros p l e0 Hg. revert e0.
  induction Hg as [|x l [d Hx] _ IH]; intros e0.
  - cbn. rewrite orb_false_r. reflexivity.
  - unfold entropy_sum in *. cbn [fold_left length]. rewrite IH.
    rewrite Hx. cbn.
    destruct (sgrad p e0), (p A2C_entropy), (length l); reflexivity.
Qed.

(** The bootstrap query runs without gradients: the value that a rollout
    returns and the feature tensor that it copies into the last slot of the
    buffer carry no autograd history, while the returned entropy sum reaches
    the entropy of the steps.  The feature tensor of the buffer is filled in
    place, so what is read from it afterwards, like the slice [features[1:]]
    of [train], is joined to the features that the agent computed during the
    steps all the same. *)
Theorem rollout_bootstrap_without_gradient : forall r : Runner,
  runner_wf r -> (0 < rollout_size (params r))%nat ->
  exists final_value entropy0 final_features r' w,
    episode_rollout r = (Ok (final_value, entropy0), r', w) /\
    (forall p, tgrad p final_value = false) /\
    (forall p, sgrad p entropy0 = p A2C_entropy) /\
    nth_error (Storage.features (storage r')) (rollout_size (params r)) =
      Some (Some final_features) /\
    (forall p, tgrad p final_features = false) /\
    (forall p, tgrad p (Storage.features_from1 (storage r')) = p A2C_features).
Proof.
  intros r Hwf Hpos.
  destruct (episode_rollout_ok Hwf Hpos)
    as (l & fin & r' & Hrun & Hlen & Hgrad & (d & Hfin) & _ & _ & Hft & _).
  exists (value fin), (entropy_sum (SConst 0) l), (a2c_features fin), r'.
  eexists. split; [exact Hrun|].
  split; [intros p; subst fin; reflexivity|].
  split.
  { intros p. rewrite sgrad_entropy_sum by exact Hgrad. rewrite Hlen.
    destruct (rollout_size (params r)); [lia | reflexivity]. }
  split.
  { rewrite Hft, <- Hlen.
    rewrite <- (length_map (fun x => Some (feature_of x)) l).
    apply nth_error_pre. }
  split; [intros p; subst fin; reflexivity|].
  intros p. unfold Storage.features_from1, Storage.feature_table. cbn [tgrad].
  rewrite Hft, tgrad_cat, map_app, existsb_app.
  rewrite (existsb_recorded p Hgrad). subst fin.
  cbn [map existsb Storage.slot a2c_features wrap_action tgrad].
  rewrite !orb_false_r, Hlen.
  destruct (rollout_size (params r)); [lia | reflexivity].
Qed.

(** *** One update, call by call *)

Lemma filter_collection_blocks : forall l t,
  filter is_collection (blocks t l) = blocks t l.
Proof.
  induction l as [|x l IH]; intros t; cbn; [reflexivity|].
  rewrite IH. reflexivity.
Qed.

(** An update first collects: until the rollout is complete it calls only
    the buffer, the agent and the environment, with one environment step and
    one insertion per rollout step.  It then learns, in this order: zero the
    gradients, run the curiosity module, compute the actor-critic terms, read
    the coefficient, propagate the loss backward, clip, log, step the
    optimizer, reset the buffer, step the coefficient.  For every hundredth
    update it finally reports the value of the very loss it propagated. *)
Theorem update_collects_then_learns : forall k (r : Runner),
  runner_wf r -> (0 < rollout_size (params r))%nat ->
  exists r' pre F FP AP pl vl L,
    update gamma k r =
      (Ok tt, r',
       pre ++
       [ZeroGrad; IcmForward F FP AP; A2CLoss pl vl;
        CoeffRead (coeff_value (curiosity_coeff (params r)));
        Backward L false; ClipGradNorm (max_grad_norm (params r));
        LoggerLog; OptimizerStep; AfterUpdate; CoeffStep] ++
       (if (k mod 100 =? 0)%nat
        then [Print k (seval L); PrintRewardStats] else [])) /\
    filter is_collection pre = pre /\
    count is_env_step pre = rollout_size (params r) /\
    count is_insert pre = rollout_size (params r).
Proof.
  intros k r Hwf Hpos.
  destruct (update_ok gamma k Hwf Hpos) as (l & fin & self & f & fp & ap & r' & Hout).
  destruct Hout as (r1 & n2 & Hroll & _ & Hself & Hrun & _).
  destruct Hroll as (_ & Hlen & _ & _ & (c1 & _) & _).
  assert (Hp : params self = params r) by (subst self; exact c1).
  exists r', (blocks 0 l ++ [GetState (rollout_size (params r));
                             GetAction false fin;
                             CopyFeature (rollout_size (params r))]).
  do 6 eexists. split.
  { rewrite Hrun. unfold Outcome.update_tail. rewrite Hp. reflexivity. }
  split.
  { rewrite filter_app, filter_collection_blocks. reflexivity. }
  unfold count. rewrite !filter_app, !length_app.
  rewrite filter_env_step_blocks.
  split; [cbn; lia|].
  replace (length (filter is_insert (blocks 0 l))) with (length l); [cbn; lia|].
  clear. generalize 0%nat. induction l as [|x l IH]; intros t; cbn; [reflexivity|].
  f_equal. apply IH.
Qed.

(** *** The gradient of the assembled loss *)

Lemma sgrad_curiosity_loss : forall p (r1 : Runner) (l : list step_rec) fin FP,
  Forall with_grad l -> (exists d, fin = wrap_action false d) ->
  Storage.features (storage r1) =
    map (fun x => Some (feature_of x)) l ++ [Some (a2c_features fin)] ->
  sgrad p (curiosity_loss r1 FP) = (1 <=? length l)%nat && p A2C_features.
Proof.
  intros p r1 l fin FP Hgrad (d & Hfin) Hft.
  unfold curiosity_loss. cbn [sgrad tgrad]. rewrite orb_false_r.
  unfold Storage.features_from1, Storage.feature_table. cbn [tgrad].
  rewrite Hft, tgrad_cat, map_app, existsb_app.
  rewrite (existsb_recorded p Hgrad). subst fin.
  cbn [map existsb Storage.slot a2c_features wrap_action tgrad].
  rewrite !orb_false_r. reflexivity.
Qed.

(** The loss that an update propagates backward sends gradient to the
    entropy of the rollout steps, to the three outputs of the curiosity
    module and to whatever the two actor-critic terms of the buffer reach;
    through the subtracted curiosity term, which reads a slice of the
    feature tensor that the rollout filled in place, it also reaches the
    features the agent computed during the rollout.  The coefficients enter
    as plain numbers. *)
Theorem loss_gradient_reach : forall k (r : Runner),
  runner_wf r -> (0 < rollout_size (params r))%nat ->
  exists pl vl L,
    a2c_outputs (snd (update gamma k r)) = [(pl, vl)] /\
    backward_losses (snd (update gamma k r)) = [L] /\
    forall p,
      sgrad p L =
        sgrad p pl || sgrad p vl || p A2C_entropy ||
        p ICM_feature_pred || p ICM_feature || p ICM_action_pred ||
        p A2C_features.
Proof.
  intros k r Hwf Hpos.
  destruct (update_ok gamma k Hwf Hpos) as (l & fin & self & f & fp & ap & r' & Hout).
  destruct Hout as (r1 & n2 & Hroll & _ & Hself & Hrun & _).
  destruct Hroll as (_ & Hlen & Hgrad & Hfin & _ & _ & Hft & _).
  do 3 eexists. rewrite Hrun. cbn [snd].
  split.
  { unfold a2c_outputs.
    rewrite !flat_map_app, flat_map_blocks_nil by reflexivity.
    unfold Outcome.update_tail. cbn [flat_map app].
    destruct (k mod 100 =? 0)%nat; reflexivity. }
  split.
  { rewrite backward_losses_update_log. apply backward_losses_update_tail. }
  intros p. unfold Outcome.update_loss, assemble_loss, a2c_loss, icm_loss, mse_loss.
  cbn [sgrad tgrad].
  rewrite sgrad_curiosity_loss with (l := l) (fin := fin);
    [| exact Hgrad | exact Hfin | subst self; exact Hft].
  rewrite sgrad_entropy_sum by exact Hgrad.
  rewrite Hlen. cbn [sgrad].
  destruct (rollout_size (params r)) as [|T]; [lia|]. cbn [Nat.leb].
  repeat match goal with
         | |- context [sgrad p ?x] => destruct (sgrad p x)
         | |- context [p ?x] => destruct (p x)
         end; reflexivity.
Qed.

(** *** A training run as a whole *)

Lemma update_run_shape : forall k p w,
  Outcome.update_run gamma k p w ->
  exists l fin (self : Runner) F FP AP,
    params self = p /\ length l = rollout_size p /\
    w = (blocks 0 l ++ [GetState (rollout_size p); GetAction false fin;
                        CopyFeature (rollout_size p)]) ++
        Outcome.update_tail gamma k self (entropy_sum (SConst 0) l) (value fin)
          F FP AP.
Proof.
  intros k p w (r & l & fin & self & f & fp & ap & r' & _ & _ & Hp & Hout & Hrun).
  destruct Hout as (r1 & n2 & Hroll & _ & Hself & Hrun' & _).
  destruct Hroll as (_ & Hlen & _ & _ & (c1 & _) & _).
  rewrite Hrun in Hrun'. injection Hrun' as Hw. subst p.
  exists l, fin, self, (TLeaf ICM_feature f), (TLeaf ICM_feature_pred fp),
    (TLeaf ICM_action_pred ap).
  split; [subst self; exact c1|]. split; [exact Hlen | exact Hw].
Qed.

Lemma flat_map_concat_Forall2 : forall (B : Type) (g : event -> list B)
    (h : nat -> list B) ks ws,
  Forall2 (fun k w => flat_map g w = h k) ks ws ->
  flat_map g (concat ws) = flat_map h ks.
Proof.
  induction 1 as [|k w ks ws Hw _ IH]; cbn; [reflexivity|].
  rewrite flat_map_app, Hw, IH. reflexivity.
Qed.

Lemma flat_map_if_filter : forall (c : nat -> bool) ks,
  flat_map (fun k => if c k then [k] else []) ks = filter c ks.
Proof.
  induction ks as [|k ks IH]; cbn; [reflexivity|].
  rewrite IH. destruct (c k); reflexivity.
Qed.

(** A training run reports on exactly the updates whose number is a
    multiple of one hundred, the first one included, in increasing order. *)
Theorem train_reports_every_hundredth_update : forall r : Runner,
  runner_wf r ->
  (0 < rollout_size (params r) \/ num_updates (params r) = 0)%nat ->
  printed_updates (snd (train gamma r)) =
    filter (fun k => (k mod 100 =? 0)%nat) (seq 0 (num_updates (params r))).
Proof.
  intros r Hwf Hpos.
  destruct (train_ok gamma Hwf Hpos) as (ws & r' & Hrun & Hall).
  rewrite Hrun. cbn [snd]. unfold printed_updates.
  rewrite !flat_map_app. cbn [flat_map app]. rewrite app_nil_r.
  rewrite <- flat_map_if_filter.
  apply flat_map_concat_Forall2.
  eapply Forall2_impl; [|exact Hall].
  intros k w Hw. cbn beta in Hw.
  destruct (update_run_shape Hw) as (l & fin & self & F & FP & AP & _ & _ & ->).
  rewrite !flat_map_app, flat_map_blocks_nil by reflexivity.
  unfold Outcome.update_tail. cbn [flat_map app].
  destruct (k mod 100 =? 0)%nat; reflexivity.
Qed.

Lemma count_app : forall (q : event -> bool) a b,
  count q (a ++ b) = (count q a + count q b)%nat.
Proof. intros. unfold count. rewrite filter_app, length_app. reflexivity. Qed.

Lemma count_blocks : forall (q : event -> bool) c l t,
  (forall t' x, count q (block t' x) = c) ->
  count q (blocks t l) = (length l * c)%nat.
Proof.
  intros q c l t Hb. revert t.
  induction l as [|x l IH]; intros t; cbn [blocks length]; [reflexivity|].
  rewrite count_app, Hb, IH. lia.
Qed.

Lemma count_concat : forall (q : event -> bool) c (ws : list (list event)),
  Forall (fun w => count q w = c) ws ->
  count q (concat ws) = (length ws * c)%nat.
Proof.
  induction 1 as [|w ws Hw _ IH]; cbn [concat length]; [reflexivity|].
  rewrite count_app, Hw, IH. lia.
Qed.

(** Counting the calls of one kind in a training run: [cb] of them in every
    rollout step, [ce] in the bootstrap of every rollout, [ct] in the
    learning part of every update. *)
Lemma count_train : forall (q : event -> bool) cb ce ct (r : Runner),
  (forall t x, count q (block t x) = cb) ->
  (forall T fin, count q [GetState T; GetAction false fin; CopyFeature T] = ce) ->
  (forall k (self : Runner) e fv F FP AP,
     count q (Outcome.update_tail gamma k self e fv F FP AP) = ct) ->
  runner_wf r ->
  (0 < rollout_size (params r) \/ num_updates (params r) = 0)%nat ->
  count q (snd (train gamma r)) =
    (count q [EnvReset; CopyState 0] +
     num_updates (params r) * (rollout_size (params r) * cb + ce + ct) +
     count q [EnvClose; LoggerSave;
              ParamsSave (data_dir (logger r)) (timestamp r)])%nat.
Proof.
  intros q cb ce ct r Hb He Ht Hwf Hpos.
  destruct (train_ok gamma Hwf Hpos) as (ws & r' & Hrun & Hall).
  rewrite Hrun. cbn [snd]. rewrite !count_app.
  rewrite (@count_concat q (rollout_size (params r) * cb + ce + ct) ws).
  - apply Forall2_length in Hall. rewrite length_seq in Hall.
    rewrite <- Hall. lia.
  - eapply Forall2_Forall_r; [exact Hall|].
    intros k w Hw. cbn beta in Hw.
    destruct (update_run_shape Hw) as (l & fin & self & F & FP & AP & _ & Hlen & ->).
    rewrite !count_app, count_blocks with (c := cb) by exact Hb.
    rewrite He, Ht, Hlen. reflexivity.
Qed.

(** How often a training run of [n] updates with rollouts of [T] steps calls
    its collaborators: the environment is reset once, stepped [n * T] times
    and closed once; the agent is queried [n * (T + 1)] times, [n] of them
    without gradients; the buffer receives [n * T] insertions and is reset
    [n] times; the curiosity module, the backward pass and the optimizer
    step run [n] times each. *)
Theorem train_call_counts : forall r : Runner,
  runner_wf r ->
  (0 < rollout_size (params r) \/ num_updates (params r) = 0)%nat ->
  let w := snd (train gamma r) in
  let n := num_updates (params r) in
  let T := rollout_size (params r) in
  count is_env_reset w = 1%nat /\
  count is_env_step w = (n * T)%nat /\
  count is_env_close w = 1%nat /\
  count is_query w = (n * (T + 1))%nat /\
  count is_no_grad_query w = n /\
  count is_insert w = (n * T)%nat /\
  count is_after_update w = n /\
  count is_icm_forward w = n /\
  count is_backward w = n /\
  count is_optimizer_step w = n.
Proof.
  intros r Hwf Hpos w n T. subst w n T.
  repeat match goal with
         | |- _ /\ _ => split
         | |- count ?q _ = _ =>
             erewrite (@count_train q);
               [ | intros; cbn; reflexivity
                 | intros; cbn; reflexivity
                 | intros; unfold Outcome.update_tail;
                   destruct (_ mod 100 =? 0)%nat; cbn; reflexivity
                 | exact Hwf | exact Hpos ];
             cbn; lia
         end.
Qed.

End WithCollaborators.

End MoreFacts.

(** ** Returns, advantages and the actor-critic losses of the buffer *)

Module ReturnFacts.
Import Torch Storage.

Lemma map2_length : forall (A B D : Type) (f : A -> B -> D) l m,
  length (map2 f l m) = Nat.min (length l) (length m).
Proof.
  induction l as [|a l IH]; intros [|b m]; cbn; auto.
Qed.

Lemma map2_nth : forall (A B D : Type) (f : A -> B -> D) l m n da db dd,
  (n < length l)%nat -> (n < length m)%nat ->
  nth n (map2 f l m) dd = f (nth n l da) (nth n m db).
Proof.
  induction l as [|a l IH]; intros [|b m] n da db dd Hl Hm; cbn in *; try lia.
  destruct n; [reflexivity|]. apply IH; lia.
Qed.

Lemma combine_nth_lt : forall (A B : Type) (l : list A) (m : list B) n a b,
  (n < length l)%nat -> (n < length m)%nat ->
  nth n (combine l m) (a, b) = (nth n l a, nth n m b).
Proof.
  induction l as [|x l IH]; intros [|y m] n a b Hl Hm; cbn in *; try lia.
  destruct n; [reflexivity|]. apply IH; lia.
Qed.

Lemma step_return_length : forall gamma r next d N,
  length r = N -> length next = N -> length d = N ->
  length (step_return gamma r next d) = N.
Proof.
  intros. unfold step_return. rewrite map2_length, length_combine. lia.
Qed.

Lemma step_return_nth : forall gamma r next d n,
  (n < length r)%nat -> (n < length next)%nat -> (n < length d)%nat ->
  nth n (step_return gamma r next d) 0%R =
    (nth n r 0 + gamma * nth n next 0 * (1 - b2R (nth n d false)))%R.
Proof.
  intros gamma r next d n Hr Hn Hd. unfold step_return.
  rewrite (@map2_nth _ _ _ _ r (combine next d) n 0%R (0%R, false) 0%R);
    [|assumption|rewrite length_combine; lia].
  rewrite combine_nth_lt by assumption.
  reflexivity.
Qed.

Lemma nth_0_app_hd : forall (A : Type) (l : list A) x d,
  nth 0 (l ++ [x]) d = hd x l.
Proof. intros A [|y l] x d; reflexivity. Qed.

Lemma returns_length : forall gamma rs ds fv,
  length rs = length ds -> length (returns gamma rs ds fv) = length rs.
Proof.
  induction rs as [|r rs IH]; intros [|d ds] fv Hlen; cbn in *; try lia.
  rewrite IH; lia.
Qed.

Lemma returns_nth : forall gamma rs ds fv t,
  length rs = length ds -> (t < length rs)%nat ->
  nth t (returns gamma rs ds fv) [] =
    step_return gamma (nth t rs []) (nth (S t) (returns gamma rs ds fv ++ [fv]) [])
      (nth t ds []).
Proof.
  induction rs as [|r rs IH]; intros [|d ds] fv t Hlen Ht; cbn in *; try lia.
  destruct t as [|t].
  - rewrite nth_0_app_hd. reflexivity.
  - apply IH; lia.
Qed.

Lemma returns_rows : forall gamma rs ds fv N,
  length rs = length ds ->
  Forall (fun r => length r = N) rs -> Forall (fun d => length d = N) ds ->
  length fv = N ->
  Forall (fun r => length r = N) (returns gamma rs ds fv ++ [fv]).
Proof.
  induction rs as [|r rs IH]; intros [|d ds] fv N Hlen Hrs Hds Hfv; cbn in *;
    try lia.
  - constructor; auto.
  - inversion Hrs; inversion Hds; subst.
    assert (Hrest : Forall (fun r0 => length r0 = length fv)
                      (returns gamma rs ds fv ++ [fv])) by (apply IH; auto).
    constructor; [|exact Hrest].
    apply step_return_length; auto.
    rewrite <- (nth_0_app_hd _ fv []).
    destruct (returns gamma rs ds fv ++ [fv]) eqn:El.
    + destruct (returns gamma rs ds fv); discriminate.
    + inversion Hrest; subst. assumption.
Qed.

(** (C3) The return computation of the buffer, seeded with the bootstrap
    value, satisfies [R_T = final_value] and, for every step [t < T] and
    environment [n], [R_t = reward_t + gamma * R_{t+1} * (1 - done_t)]; so a
    done flag at [t] leaves [R_t = reward_t], whatever comes later.  The
    advantage is [R_t - value_t]; the policy loss is
    [-mean(log_prob_t * detach(A_t))], which sends no gradient through the
    advantage; the value loss is [mean(A_t^2)].  With rewards [1, 1], done
    flags [1, 0], final value [5] and [gamma = 0.9]: [R_1 = 5.5], [R_0 = 1]. *)
Theorem C3_bootstrapped_returns :
  forall (gamma : R) (trs : list transition) (final_value : tensor) (N : nat),
  Forall (fun tr => length (tr_rewards tr) = N /\ length (tr_dones tr) = N) trs ->
  length (teval final_value) = N ->
  let T := length trs in
  let Rs := returns gamma (map tr_rewards trs) (map tr_dones trs) (teval final_value) in
  let ret := fun t n => nth n (nth t (Rs ++ [teval final_value]) []) 0%R in
  let reward := fun t n => nth n (tr_rewards (nth t trs empty_transition)) 0%R in
  let done := fun t n => nth n (tr_dones (nth t trs empty_transition)) false in
  let A := advantage gamma trs final_value in
  let pl := fst (fst (a2c_terms gamma trs final_value)) in
  let vl := snd (fst (a2c_terms gamma trs final_value)) in
  (forall n, ret T n = nth n (teval final_value) 0%R) /\
  (forall t n, (t < T)%nat -> (n < N)%nat ->
     ret t n = (reward t n + gamma * ret (S t) n * (1 - b2R (done t n)))%R) /\
  (forall t n, (t < T)%nat -> (n < N)%nat -> done t n = true ->
     ret t n = reward t n) /\
  teval A = map2 Rminus (concat Rs) (teval (cat (map tr_value trs))) /\
  seval pl = (- Rmean (map2 Rmult (teval (cat (map tr_log_prob trs))) (teval A)))%R /\
  (forall p, sgrad p pl = tgrad p (cat (map tr_log_prob trs))) /\
  seval vl = Rmean (map Rsqr2 (teval A)) /\
  returns (9 / 10) [[1%R]; [1%R]] [[true]; [false]] [5%R] = [[1%R]; [(11 / 2)%R]].
Proof.
  intros gamma trs final_value N Hshape Hfv T Rs ret reward done A pl vl.
  assert (Hlen : length (map tr_rewards trs) = length (map tr_dones trs))
    by (now rewrite !length_map).
  assert (HT : length Rs = T)
    by (unfold Rs; rewrite returns_length, length_map; auto).
  assert (Hr : Forall (fun r => length r = N) (map tr_rewards trs)).
  { apply Forall_map. eapply Forall_impl; [|exact Hshape]. now intros tr [? ?]. }
  assert (Hd : Forall (fun d => length d = N) (map tr_dones trs)).
  { apply Forall_map. eapply Forall_impl; [|exact Hshape]. now intros tr [? ?]. }
  assert (Hrows : Forall (fun r => length r = N) (Rs ++ [teval final_value]))
    by (apply returns_rows; auto).
  assert (Hrec : forall t n, (t < T)%nat -> (n < N)%nat ->
            ret t n = (reward t n + gamma * ret (S t) n * (1 - b2R (done t n)))%R).
  { intros t n Ht Hn. unfold ret, reward, done.
    rewrite app_nth1 by lia.
    unfold Rs at 1. rewrite returns_nth by (rewrite ?length_map; auto).
    fold Rs.
    change (@nil R) with (tr_rewards empty_transition) at 1.
    change (@nil bool) with (tr_dones empty_transition).
    rewrite !map_nth.
    rewrite Forall_forall in Hshape, Hrows.
    destruct (Hshape (nth t trs empty_transition)) as [Hlr Hld];
      [apply nth_In; exact Ht|].
    apply step_return_nth; try lia.
    rewrite (Hrows (nth (S t) (Rs ++ [teval final_value]) [])); [exact Hn|].
    apply nth_In. rewrite length_app, HT. cbn. lia. }
  split.
  { intros n. unfold ret. rewrite app_nth2 by lia.
    rewrite HT, Nat.sub_diag. reflexivity. }
  split; [exact Hrec|].
  split.
  { intros t n Ht Hn Hdone. rewrite Hrec by assumption. rewrite Hdone. cbn. ring. }
  split; [reflexivity|].
  split; [reflexivity|].
  split; [intros p; cbn; apply orb_false_r|].
  split; [reflexivity|].
  cbn. f_equal; [f_equal; lra | f_equal; f_equal; lra].
Qed.

End ReturnFacts.

(** ** The toy run *)

Module ToyFacts.
Import Torch Collab Runner Log Outcome Toy.

Lemma toy_forward_loss_1 : seval (toy_forward_loss 1) = 0%R.
Proof. cbn. unfold Rmean, Rsum, Rsqr2. cbn. lra. Qed.

Lemma toy_curiosity_1 : seval (toy_curiosity 1) = 1%R.
Proof. cbn. unfold Rmean, Rsum, Rsqr2. cbn. lra. Qed.

(** (C1, counterexample) In the first update of the toy run with one step,
    the curiosity module returns the features [0] and predicts [0], while the
    buffer recorded the feature [1]: the forward loss is 0, the subtracted
    curiosity loss is 1, and the loss that is propagated backward is not the
    claimed sum, whichever of the two is taken as the one forward-loss
    quantity. *)
Lemma C1_counterexample :
  backward_losses (snd (update toy_gamma 0 (toy_runner 1 1))) = [toy_loss 1] /\
  seval (toy_forward_loss 1) = 0%R /\
  seval (toy_curiosity 1) = 1%R /\
  seval (toy_loss 1) <> toy_claimed 1 (seval (toy_forward_loss 1)) /\
  seval (toy_loss 1) <> toy_claimed 1 (seval (toy_curiosity 1)).
Proof.
  split; [reflexivity|].
  split; [exact toy_forward_loss_1|]. split; [exact toy_curiosity_1|].
  unfold toy_claimed, toy_loss, toy_a2c_part.
  cbn [seval params toy_runner init toy_params
       value_coeff entropy_coeff curiosity_coeff coeff_value toy_coeff].
  rewrite toy_forward_loss_1, toy_curiosity_1.
  split; lra.
Qed.

(** (C2, counterexample) In the first update of the toy run with two steps,
    the forward loss of the curiosity sum has the feature output of the
    curiosity module as its target, not the features recorded in the buffer
    (its value differs from the error against them), and it sends gradient
    into that target.  The only term of the loss that compares the prediction
    with the recorded features sends its gradient into the recorded features
    and none into the prediction. *)
Lemma C2_counterexample :
  backward_losses (snd (update toy_gamma 0 (toy_runner 1 2))) = [toy_loss 2] /\
  toy_forward_loss 2 =
    mse_loss (TLeaf ICM_feature_pred [0%R; 0%R]) (TLeaf ICM_feature [0%R; 0%R]) /\
  toy_curiosity 2 =
    SMean (TPow2 (TSub (TView (TCat (TLeaf A2C_features [1%R])
                                    (TCat (TLeaf A2C_features [1%R])
                                          (TCat (TConst [1%R]) (TConst []))))
                              (TCat (TLeaf A2C_features [1%R])
                                    (TCat (TConst [1%R]) (TConst []))))
                       (TDetach (TLeaf ICM_feature_pred [0%R; 0%R])))) /\
  seval (toy_forward_loss 2) <>
    seval (mse_loss (toy_feature_pred 2) (TDetach (toy_recorded 2))) /\
  sgrad (is_origin ICM_feature) (toy_forward_loss 2) = true /\
  sgrad (is_origin A2C_features) (toy_curiosity 2) = true /\
  sgrad (is_origin ICM_feature_pred) (toy_curiosity 2) = false /\
  sgrad (is_origin A2C_features) (toy_loss 2) = true.
Proof.
  split; [reflexivity|]. split; [reflexivity|]. split; [reflexivity|].
  split; [|repeat split; reflexivity].
  cbn. unfold Rmean, Rsum, Rsqr2. cbn. lra.
Qed.

(** (C1, witness) The theorem at the first update of the toy run with one step. *)
Lemma C1_witness :
  runner_wf (toy_runner 1 1) /\
  (0 < rollout_size (params (toy_runner 1 1)))%nat /\
  exists L, backward_losses (snd (update toy_gamma 0 (toy_runner 1 1))) = [L].
Proof.
  assert (Hwf : runner_wf (toy_runner 1 1))
    by (unfold runner_wf, Storage.wf; cbn; repeat split; reflexivity).
  assert (Hpos : (0 < rollout_size (params (toy_runner 1 1)))%nat) by (cbn; lia).
  split; [exact Hwf|]. split; [exact Hpos|].
  destruct (RunnerFacts.C1_total_objective toy_gamma 0 Hwf Hpos)
    as (l & fin & self & f & fp & ap & r' & _ & L & HL & _).
  exists L. exact HL.
Defined.

(** (C2, witness) The theorem at the first update of the toy run with two steps. *)
Lemma C2_witness :
  runner_wf (toy_runner 1 2) /\
  (0 < rollout_size (params (toy_runner 1 2)))%nat /\
  exists l fin self f fp ap r',
    update_outcome toy_gamma 0 (toy_runner 1 2) l fin self f fp ap r' /\
    sgrad (is_origin A2C_features)
          (curiosity_loss self (TLeaf ICM_feature_pred fp)) = true.
Proof.
  assert (Hwf : runner_wf (toy_runner 1 2))
    by (unfold runner_wf, Storage.wf; cbn; repeat split; reflexivity).
  assert (Hpos : (0 < rollout_size (params (toy_runner 1 2)))%nat) by (cbn; lia).
  split; [exact Hwf|]. split; [exact Hpos|].
  destruct (RunnerFacts.C2_forward_loss_gradients toy_gamma 0 Hwf Hpos)
    as (l & fin & self & f & fp & ap & r' & Hout & _ & _ & _ & _ & Hg).
  exists l, fin, self, f, fp, ap, r'. split; [exact Hout|].
  rewrite Hg. reflexivity.
Defined.

(** (C3, witness) The theorem at the two-step trajectory whose first step ends an episode: [R_0] is the reward. *)
Lemma C3_witness :
  Forall (fun tr => length (Storage.tr_rewards tr) = 1%nat /\
                    length (Storage.tr_dones tr) = 1%nat) done_trajectory /\
  length (teval (TConst [5%R])) = 1%nat /\
  nth 0 (nth 0 (Storage.returns toy_gamma (map Storage.tr_rewards done_trajectory)
                  (map Storage.tr_dones done_trajectory) [5%R] ++ [[5%R]]) []) 0%R
    = 1%R.
Proof.
  assert (Hshape : Forall (fun tr => length (Storage.tr_rewards tr) = 1%nat /\
                                     length (Storage.tr_dones tr) = 1%nat)
                          done_trajectory)
    by (repeat constructor).
  assert (Hfv : length (teval (TConst [5%R])) = 1%nat) by reflexivity.
  split; [exact Hshape|]. split; [exact Hfv|].
  destruct (ReturnFacts.C3_bootstrapped_returns toy_gamma (TConst [5%R]) Hshape Hfv)
    as (_ & _ & Hdone & _).
  apply (Hdone 0%nat 0%nat); [cbn; lia | lia | reflexivity].
Defined.


(** (C5, witness) The theorem at the toy run with two updates. *)
Lemma C5_witness :
  runner_wf (toy_runner 2 1) /\
  (0 < rollout_size (params (toy_runner 2 1)))%nat /\
  exists ws r',
    train toy_gamma (toy_runner 2 1) =
      (Ok tt, r',
       [EnvReset; CopyState 0] ++ concat ws ++
       [EnvClose; LoggerSave; ParamsSave "logs" "2019-01-01 00_00_00"]) /\
    length ws = 2%nat.
Proof.
  assert (Hwf : runner_wf (toy_runner 2 1))
    by (unfold runner_wf, Storage.wf; cbn; repeat split; reflexivity).
  assert (Hpos : (0 < rollout_size (params (toy_runner 2 1)))%nat) by (cbn; lia).
  split; [exact Hwf|]. split; [exact Hpos|].
  destruct (RunnerFacts.C5_schedule_stepped_after_optimizer toy_gamma Hwf Hpos)
    as (ws & r' & Hrun & Hall).
  exists ws, r'. split; [exact Hrun|].
  apply Forall2_length in Hall. rewrite <- Hall. reflexivity.
Defined.

(** (C6, witness) The theorem at the first update of the toy run: the toy
    network has no state, and the four optimization calls are made once
    each. *)
Lemma C6_witness :
  runner_wf (toy_runner 2 1) /\
  (0 < rollout_size (params (toy_runner 2 1)))%nat /\
  exists L r',
    fst (update toy_gamma 0 (toy_runner 2 1)) = (Ok tt, r') /\
    filter is_optimization (snd (update toy_gamma 0 (toy_runner 2 1))) =
      [ZeroGrad; Backward L false; ClipGradNorm (1 / 2); OptimizerStep] /\
    net r' = tt.
Proof.
  assert (Hwf : runner_wf (toy_runner 2 1))
    by (unfold runner_wf, Storage.wf; cbn; repeat split; reflexivity).
  assert (Hpos : (0 < rollout_size (params (toy_runner 2 1)))%nat) by (cbn; lia).
  split; [exact Hwf|]. split; [exact Hpos|].
  destruct (RunnerFacts.C6_optimization_step_order toy_gamma 0 Hwf Hpos)
    as (l & fin & self & f & fp & ap & r' & Hout & Hopt & r1 & n2 & _ & _ & _ & Hnet).
  destruct Hout as (r0 & n0 & _ & _ & _ & Hrun & _).
  eexists. exists r'. split; [rewrite Hrun; reflexivity|].
  split; [exact Hopt|]. rewrite Hnet. destruct n2. reflexivity.
Defined.

(** (C7, witness) The theorem at the rollout of the toy run with two steps. *)
Lemma C7_witness :
  runner_wf (toy_runner 1 2) /\
  (0 < rollout_size (params (toy_runner 1 2)))%nat /\
  exists l r1 x r' w,
    episode_rollout (toy_runner 1 2) = (Ok x, r', w) /\
    length (filter is_env_step w) = 2%nat /\
    length l = 2%nat /\
    rollout_chain 0 (toy_runner 1 2) l r1.
Proof.
  assert (Hwf : runner_wf (toy_runner 1 2))
    by (unfold runner_wf, Storage.wf; cbn; repeat split; reflexivity).
  assert (Hpos : (0 < rollout_size (params (toy_runner 1 2)))%nat) by (cbn; lia).
  split; [exact Hwf|]. split; [exact Hpos|].
  destruct (RunnerFacts.C7_reset_before_next_get_state Hwf Hpos)
    as (l & fin & r1 & r' & w & Hrun & Hn & _ & Hlen & Hchain & _).
  exists l, r1. eexists. exists r', w.
  split; [exact Hrun|]. split; [exact Hn|]. split; [exact Hlen | exact Hchain].
Defined.

(** (C8, witness) The theorem at the toy run with two updates. *)
Lemma C8_witness :
  (0 < rollout_size (toy_params 2 1) \/ num_updates (toy_params 2 1) = 0)%nat /\
  exists ws rn,
    train toy_gamma (toy_runner 2 1) =
      (Ok tt, set_env (env_close (env rn)) rn,
       [EnvReset; CopyState 0] ++ concat ws ++
       [EnvClose; LoggerSave; ParamsSave "logs" "2019-01-01 00_00_00"]) /\
    length ws = 2%nat.
Proof.
  assert (Hpos : (0 < rollout_size (toy_params 2 1)
                  \/ num_updates (toy_params 2 1) = 0)%nat) by (cbn; lia).
  split; [exact Hpos|].
  destruct (RunnerFacts.C8_train_runs_updates_then_teardown toy_gamma tt tt
              (toy_params 2 1) false 42%Z "logs" "2019-01-01 00_00_00" false
              toy_logger Hpos)
    as (obs & e0 & s0 & ws & rn & _ & _ & _ & Hlen & Hrun & _).
  exists ws, rn. split; [exact Hrun | exact Hlen].
Defined.

(** (C9, witness) The theorem at the toy runner with rollout size zero. *)
Lemma C9_witness :
  rollout_size (params (toy_runner 1 0)) = 0%nat /\
  episode_rollout (toy_runner 1 0) =
    (Raise (UnboundLocalError "step"), toy_runner 1 0, []).
Proof.
  assert (HT : rollout_size (params (toy_runner 1 0)) = 0%nat) by reflexivity.
  split; [exact HT|].
  exact (RunnerFacts.C9_rollout_size_zero_raises (toy_runner 1 0) HT).
Defined.

(** The return computation of the first toy update is seeded with the value
    of its bootstrap query. *)
Lemma returns_seeded_witness :
  runner_wf (toy_runner 1 1) /\
  (0 < rollout_size (params (toy_runner 1 1)))%nat /\
  exists pl vl, a2c_outputs (snd (update toy_gamma 0 (toy_runner 1 1))) = [(pl, vl)].
Proof.
  assert (Hwf : runner_wf (toy_runner 1 1))
    by (unfold runner_wf, Storage.wf; cbn; repeat split; reflexivity).
  assert (Hpos : (0 < rollout_size (params (toy_runner 1 1)))%nat) by (cbn; lia).
  split; [exact Hwf|]. split; [exact Hpos|].
  destruct (RunnerFacts.returns_seeded_with_bootstrap_value toy_gamma 0 Hwf Hpos)
    as (l & fin & self & f & fp & ap & r' & _ & _ & Hout).
  do 2 eexists. exact Hout.
Defined.

End ToyFacts.

(** ** The toy run, continued *)

Module MoreToyFacts.
Import Torch Collab Runner Log Calls Outcome Toy.

(** With one update to run and a rollout size of zero, the toy training run
    stops after the reset. *)
Lemma train_zero_rollout_witness :
  runner_wf (toy_runner 1 0) /\
  rollout_size (params (toy_runner 1 0)) = 0%nat /\
  num_updates (params (toy_runner 1 0)) <> 0%nat /\
  snd (train toy_gamma (toy_runner 1 0)) = [EnvReset; CopyState 0].
Proof.
  assert (Hwf : runner_wf (toy_runner 1 0))
    by (unfold runner_wf, Storage.wf; cbn; repeat split; reflexivity).
  assert (HT : rollout_size (params (toy_runner 1 0)) = 0%nat) by reflexivity.
  assert (Hn : num_updates (params (toy_runner 1 0)) <> 0%nat) by (cbn; lia).
  split; [exact Hwf|]. split; [exact HT|]. split; [exact Hn|].
  destruct (MoreFacts.train_zero_rollout_fails_before_teardown toy_gamma Hwf HT Hn)
    as (obs & e' & s0 & _ & _ & Hrun).
  rewrite Hrun. reflexivity.
Defined.

(** The toy schedule halves the coefficient at every step: after two updates
    it is a quarter of the initial one. *)
Lemma train_steps_coefficient_witness :
  runner_wf (toy_runner 2 1) /\
  (0 < rollout_size (params (toy_runner 2 1))
   \/ num_updates (params (toy_runner 2 1)) = 0)%nat /\
  exists r',
    fst (train toy_gamma (toy_runner 2 1)) = (Ok tt, r') /\
    curiosity_coeff (params r') = (1 / 2 / 2)%R.
Proof.
  assert (Hwf : runner_wf (toy_runner 2 1))
    by (unfold runner_wf, Storage.wf; cbn; repeat split; reflexivity).
  assert (Hpos : (0 < rollout_size (params (toy_runner 2 1))
                  \/ num_updates (params (toy_runner 2 1)) = 0)%nat)
    by (left; cbn; lia).
  split; [exact Hwf|]. split; [exact Hpos|].
  destruct (MoreFacts.train_steps_coefficient_once_per_update toy_gamma Hwf Hpos)
    as (r' & Hrun & _ & Hc).
  exists r'. split; [exact Hrun | exact Hc].
Defined.

(** The toy rollout of two steps executes two action batches. *)
Lemma rollout_actions_witness :
  runner_wf (toy_runner 1 2) /\
  (0 < rollout_size (params (toy_runner 1 2)))%nat /\
  exists x r' w,
    episode_rollout (toy_runner 1 2) = (Ok x, r', w) /\
    env_actions w = query_actions true w /\
    length (env_actions w) = 2%nat.
Proof.
  assert (Hwf : runner_wf (toy_runner 1 2))
    by (unfold runner_wf, Storage.wf; cbn; repeat split; reflexivity).
  assert (Hpos : (0 < rollout_size (params (toy_runner 1 2)))%nat) by (cbn; lia).
  split; [exact Hwf|]. split; [exact Hpos|].
  destruct (MoreFacts.rollout_executes_proposed_actions Hwf Hpos)
    as (x & r' & w & Hrun & Ha & Hl & _).
  exists x, r', w. split; [exact Hrun|]. split; [exact Ha | exact Hl].
Defined.

(** The value returned by the toy rollout and the feature it writes last
    have no autograd history; the slice of the feature tensor that [train]
    reads has. *)
Lemma rollout_bootstrap_witness :
  runner_wf (toy_runner 1 2) /\
  (0 < rollout_size (params (toy_runner 1 2)))%nat /\
  exists final_value entropy0 final_features r' w,
    episode_rollout (toy_runner 1 2) = (Ok (final_value, entropy0), r', w) /\
    tgrad (is_origin A2C_value) final_value = false /\
    sgrad (is_origin A2C_entropy) entropy0 = true /\
    tgrad (is_origin A2C_features) final_features = false /\
    tgrad (is_origin A2C_features) (Storage.features_from1 (storage r')) = true.
Proof.
  assert (Hwf : runner_wf (toy_runner 1 2))
    by (unfold runner_wf, Storage.wf; cbn; repeat split; reflexivity).
  assert (Hpos : (0 < rollout_size (params (toy_runner 1 2)))%nat) by (cbn; lia).
  split; [exact Hwf|]. split; [exact Hpos|].
  destruct (MoreFacts.rollout_bootstrap_without_gradient Hwf Hpos)
    as (fv & ent & ff & r' & w & Hrun & Hv & He & _ & Hf & Hs).
  exists fv, ent, ff, r', w. split; [exact Hrun|].
  split; [apply Hv|]. split; [rewrite He; reflexivity|].
  split; [apply Hf | rewrite Hs; reflexivity].
Defined.

(** The first toy update makes one environment step before it learns. *)
Lemma update_order_witness :
  runner_wf (toy_runner 1 1) /\
  (0 < rollout_size (params (toy_runner 1 1)))%nat /\
  exists r' pre post,
    update toy_gamma 0 (toy_runner 1 1) = (Ok tt, r', pre ++ post) /\
    filter is_collection pre = pre /\
    count is_env_step pre = 1%nat.
Proof.
  assert (Hwf : runner_wf (toy_runner 1 1))
    by (unfold runner_wf, Storage.wf; cbn; repeat split; reflexivity).
  assert (Hpos : (0 < rollout_size (params (toy_runner 1 1)))%nat) by (cbn; lia).
  split; [exact Hwf|]. split; [exact Hpos|].
  destruct (MoreFacts.update_collects_then_learns toy_gamma 0 Hwf Hpos)
    as (r' & pre & F & FP & AP & pl & vl & L & Hrun & Hc & Hs & _).
  exists r', pre. eexists. split; [exact Hrun|]. split; [exact Hc | exact Hs].
Defined.

(** The loss of the first toy update of two steps sends gradient to the
    features of the agent. *)
Lemma loss_gradient_witness :
  runner_wf (toy_runner 1 2) /\
  (0 < rollout_size (params (toy_runner 1 2)))%nat /\
  exists L,
    backward_losses (snd (update toy_gamma 0 (toy_runner 1 2))) = [L] /\
    sgrad (is_origin A2C_features) L = true.
Proof.
  assert (Hwf : runner_wf (toy_runner 1 2))
    by (unfold runner_wf, Storage.wf; cbn; repeat split; reflexivity).
  assert (Hpos : (0 < rollout_size (params (toy_runner 1 2)))%nat) by (cbn; lia).
  split; [exact Hwf|]. split; [exact Hpos|].
  destruct (MoreFacts.loss_gradient_reach toy_gamma 0 Hwf Hpos)
    as (pl & vl & L & _ & HL & Hg).
  exists L. split; [exact HL|]. rewrite Hg. cbn.
  rewrite !orb_false_r. apply orb_true_r.
Defined.

(** Of the two updates of the toy run only the first is reported. *)
Lemma train_reports_witness :
  runner_wf (toy_runner 2 1) /\
  (0 < rollout_size (params (toy_runner 2 1))
   \/ num_updates (params (toy_runner 2 1)) = 0)%nat /\
  printed_updates (snd (train toy_gamma (toy_runner 2 1))) = [0%nat].
Proof.
  assert (Hwf : runner_wf (toy_runner 2 1))
    by (unfold runner_wf, Storage.wf; cbn; repeat split; reflexivity).
  assert (Hpos : (0 < rollout_size (params (toy_runner 2 1))
                  \/ num_updates (params (toy_runner 2 1)) = 0)%nat)
    by (left; cbn; lia).
  split; [exact Hwf|]. split; [exact Hpos|].
  exact (MoreFacts.train_reports_every_hundredth_update toy_gamma Hwf Hpos).
Defined.

(** The toy run of two updates with rollouts of one step steps the
    environment twice and queries the agent four times. *)
Lemma train_call_counts_witness :
  runner_wf (toy_runner 2 1) /\
  (0 < rollout_size (params (toy_runner 2 1))
   \/ num_updates (params (toy_runner 2 1)) = 0)%nat /\
  count is_env_step (snd (train toy_gamma (toy_runner 2 1))) = 2%nat /\
  count is_query (snd (train toy_gamma (toy_runner 2 1))) = 4%nat.
Proof.
  assert (Hwf : runner_wf (toy_runner 2 1))
    by (unfold runner_wf, Storage.wf; cbn; repeat split; reflexivity).
  assert (Hpos : (0 < rollout_size (params (toy_runner 2 1))
                  \/ num_updates (params (toy_runner 2 1)) = 0)%nat)
    by (left; cbn; lia).
  split; [exact Hwf|]. split; [exact Hpos|].
  destruct (MoreFacts.train_call_counts toy_gamma Hwf Hpos)
    as (_ & Hs & _ & Hq & _).
  split; [exact Hs | exact Hq].
Defined.

End MoreToyFacts.
